(** * cyColor.h : the colour classes of cyCodeBase

    A shallow embedding of [cy::Color], [cy::ColorA], [cy::Color24] and
    [cy::Color32] (src/cyColor.h).

    - [float] is IEEE-754 binary32, modelled by the Standard Library's
      executable specification [spec_float] at precision 24 and
      exponent bound 128, every operation rounding to nearest even.
      Float expressions are evaluated in single precision
      (FLT_EVAL_METHOD 0).
    - [uint8_t] and [int] are integers in [Z]; the narrowing casts are
      written out as a reduction modulo 256.
    - the conversion [int(x)] of a float is partial: C++ leaves it
      undefined when the truncated value is not an [int], so it returns
      an [option]. *)

From Stdlib Require Import ZArith List Bool Lia.
From Stdlib Require Import Floats.SpecFloat.
Import ListNotations.

Local Open Scope Z_scope.

(** ** binary32 arithmetic *)

Module F32.

Definition prec : Z := 24.
Definition emax : Z := 128.

Definition t : Type := spec_float.

Definition add : t -> t -> t := SFadd prec emax.
Definition sub : t -> t -> t := SFsub prec emax.
Definition mul : t -> t -> t := SFmul prec emax.
Definition div : t -> t -> t := SFdiv prec emax.
Definition neg : t -> t := SFopp.

(** The comparison operators of C++ on floats.  Every ordered
    comparison with a NaN is false; [!=] is true on a NaN. *)
Definition eqb (x y : t) : bool := SFeqb x y.
Definition ltb (x y : t) : bool := SFltb x y.
Definition leb (x y : t) : bool := SFleb x y.
Definition gtb (x y : t) : bool := SFltb y x.
Definition neb (x y : t) : bool :=
  match SFcompare x y with
  | Some Eq => false
  | _ => true
  end.

Definition is_nan (x : t) : bool :=
  match x with S754_nan => true | _ => false end.

Definition is_zero (x : t) : bool :=
  match x with S754_zero _ => true | _ => false end.

Definition is_finite (x : t) : bool :=
  match x with
  | S754_zero _ | S754_finite _ _ _ => true
  | _ => false
  end.

(** Conversion of an integer to float (the usual arithmetic conversion
    applied to [uint8_t] and [int] operands), correctly rounded. *)
Definition of_Z (z : Z) : t := binary_normalize prec emax z 0 false.

(** A decimal literal [n/d] with [n] and [d] below 2^24: both are exact
    floats, so the correctly rounded quotient is the float nearest to
    the literal. *)
Definition lit (n d : Z) : t := div (of_Z n) (of_Z d).

(** The integral part of a finite float, rounded toward zero. *)
Definition trunc (x : t) : option Z :=
  match x with
  | S754_zero _ => Some 0
  | S754_finite s m e =>
      let a := match e with
               | Zneg p => Z.quot (Zpos m) (2 ^ Zpos p)
               | _ => Zpos m * 2 ^ e
               end in
      Some (if s then - a else a)
  | _ => None
  end.

Definition INT_MIN : Z := - 2 ^ 31.
Definition INT_MAX : Z := 2 ^ 31 - 1.

(** [int(x)]: truncation, defined only when the truncated value is
    representable in a 32-bit [int]. *)
Definition to_int (x : t) : option Z :=
  match trunc x with
  | Some v => if (INT_MIN <=? v) && (v <=? INT_MAX) then Some v else None
  | None => None
  end.

Definition zero : t := S754_zero false.
Definition one : t := of_Z 1.
Definition half : t := lit 5 10.
Definition infinity : t := S754_infinity false.
Definition nan : t := S754_nan.

(** Same float: both NaN, or equal under [==] (so [+0] and [-0] are
    the same number). *)
Definition same_number (x y : t) : bool :=
  (is_nan x && is_nan y) || eqb x y.


(** [std::abs] on a float clears the sign. *)
Definition abs : t -> t := SFabs.

End F32.

Declare Scope f32_scope.
Delimit Scope f32_scope with f32.
Infix "+" := F32.add : f32_scope.
Infix "-" := F32.sub : f32_scope.
Infix "*" := F32.mul : f32_scope.
Infix "/" := F32.div : f32_scope.
Notation "- x" := (F32.neg x) : f32_scope.
Infix "==" := F32.eqb (at level 70, no associativity) : f32_scope.
Infix "!=" := F32.neb (at level 70, no associativity) : f32_scope.
Infix "<" := F32.ltb : f32_scope.
Infix "<=" := F32.leb : f32_scope.
Infix ">" := F32.gtb : f32_scope.

(** ** Integer types *)

Definition is_uint8 (v : Z) : Prop := 0 <= v < 256.
Definition uint8_cast (v : Z) : Z := v mod 256.

(** The 256 values of [uint8_t]. *)
Definition all_bytes : list Z := map Z.of_nat (seq 0 256).

(** [clamp(v, lo, hi)] as the spec writes it. *)
Definition clamp (v lo hi : Z) : Z := Z.max lo (Z.min hi v).

(** ** Float to byte: [Color24::FloatToByte] and [Color32::FloatToByte]
    (the two classes carry the same pair of static functions). *)

Definition ClampInt (v : Z) : Z :=
  if v <? 0 then 0 else if v >? 255 then 255 else uint8_cast v.

Definition FloatToByte (r : F32.t) : option Z :=
  option_map ClampInt (F32.to_int (r * F32.of_Z 255 + F32.half)%f32).

(** ** cyCore.h

    Modelled from the spec: [cy::Max] and [cy::Min] on [uint8_t]
    operands.  cyCore.h is not part of the sources; the spec describes
    the clamps built on them as the elementwise max/min against a bound,
    and on integers there is one such function.  On floats the choice
    made for NaN and signed zeros is visible, so the float classes below
    take [cy::Max] and [cy::Min] as parameters instead. *)
Module cy.
Definition Max_u8 (v1 v2 : Z) : Z := Z.max v1 v2.
Definition Min_u8 (v1 v2 : Z) : Z := Z.min v1 v2.

(** One maximum and one minimum on floats, to instantiate the
    parameters of the float classes. *)
Definition Max_f32 (v1 v2 : F32.t) : F32.t := if (v1 < v2)%f32 then v2 else v1.
Definition Min_f32 (v1 v2 : F32.t) : F32.t := if (v2 < v1)%f32 then v2 else v1.

(** Modelled from the spec: [cy::IsFinite] (cyCore.h), true on a finite
    real number, false on NaN and on the infinities. *)
Definition IsFinite (v : F32.t) : bool := F32.is_finite v.
End cy.

(** The four arithmetic operators, to index the overload sets. *)
Inductive arith_op : Type := OpAdd | OpSub | OpMul | OpDiv.

(** ** class Color *)

Module Color.

Record t : Type := mk { r : F32.t; g : F32.t; b : F32.t }.

Local Open Scope f32_scope.

Definition Sum (c : t) : F32.t := r c + g c + b c.
Definition Gray (c : t) : F32.t := Sum c / F32.of_Z 3.
Definition Min (c : t) : F32.t :=
  if r c < g c then (if r c < b c then r c else b c)
  else (if g c < b c then g c else b c).
Definition Max (c : t) : F32.t :=
  if r c > g c then (if r c > b c then r c else b c)
  else (if g c > b c then g c else b c).

Definition Apply (func : F32.t -> F32.t) (c : t) : t :=
  mk (func (r c)) (func (g c)) (func (b c)).
Definition GetApplied (func : F32.t -> F32.t) (c : t) : t := Apply func c.

(** Unary and binary operators (members). *)
Definition neg (c : t) : t := mk (- r c) (- g c) (- b c).
Definition add (x c : t) : t := mk (r x + r c) (g x + g c) (b x + b c).
Definition sub (x c : t) : t := mk (r x - r c) (g x - g c) (b x - b c).
Definition mul (x c : t) : t := mk (r x * r c) (g x * g c) (b x * b c).
Definition div (x c : t) : t := mk (r x / r c) (g x / g c) (b x / b c).
Definition addf (x : t) (n : F32.t) : t := mk (r x + n) (g x + n) (b x + n).
Definition subf (x : t) (n : F32.t) : t := mk (r x - n) (g x - n) (b x - n).
Definition mulf (x : t) (n : F32.t) : t := mk (r x * n) (g x * n) (b x * n).
Definition divf (x : t) (n : F32.t) : t := mk (r x / n) (g x / n) (b x / n).

(** The friend operators taking the scalar on the left. *)
Definition fadd (v : F32.t) (c : t) : t := addf c v.
Definition fsub (v : F32.t) (c : t) : t := neg (subf c v).
Definition fmul (v : F32.t) (c : t) : t := mulf c v.

(** The overload sets [Color op float] and [float op Color].  The class
    declares no [operator/(float, Color)], and its constructor from a
    float is [explicit], so [v / c] selects nothing. *)
Definition type_scalar_operator (op : arith_op) : option (t -> F32.t -> t) :=
  match op with
  | OpAdd => Some addf
  | OpSub => Some subf
  | OpMul => Some mulf
  | OpDiv => Some divf
  end.

Definition scalar_type_operator (op : arith_op) : option (F32.t -> t -> t) :=
  match op with
  | OpAdd => Some fadd
  | OpSub => Some fsub
  | OpMul => Some fmul
  | OpDiv => None
  end.

(** Test operators. *)
Definition eq (x c : t) : bool :=
  (r c == r x) && (g c == g x) && (b c == b x).
Definition ne (x c : t) : bool :=
  (r c != r x) || (g c != g x) || (b c != b x).

(** [explicit Color( float rgb )] *)
Definition of_scalar (rgb : F32.t) : t := mk rgb rgb rgb.

(** Static methods. *)
Definition Black : t := mk F32.zero F32.zero F32.zero.
Definition White : t := mk F32.one F32.one F32.one.

(** General methods; the literal [0] of [IsNegative] is an [int]
    converted to float. *)
Definition IsNegative (c : t) : bool :=
  (r c < F32.of_Z 0) || (g c < F32.of_Z 0) || (b c < F32.of_Z 0).
Definition IsBlack (c : t) : bool :=
  (r c == F32.zero) && (g c == F32.zero) && (b c == F32.zero).
Definition IsFinite (c : t) : bool :=
  cy.IsFinite (r c) && cy.IsFinite (g c) && cy.IsFinite (b c).

Definition Abs (c : t) : t := Apply F32.abs c.

Section Transfer.
(** [powf] of the C library. *)
Variable powf : F32.t -> F32.t -> F32.t.

Definition Linear2sRGB (c : t) : t :=
  let f := fun cl =>
    if cl < F32.lit 31308 10000000 then cl * F32.lit 1292 100
    else powf cl (F32.lit 41666 100000) * F32.lit 1055 1000 - F32.lit 55 1000 in
  mk (f (r c)) (f (g c)) (f (b c)).

Definition sRGB2Linear (c : t) : t :=
  let f := fun cs =>
    if cs <= F32.lit 4045 100000 then cs / F32.lit 1292 100
    else powf ((cs + F32.lit 55 1000) / F32.lit 1055 1000) (F32.lit 24 10) in
  mk (f (r c)) (f (g c)) (f (b c)).
End Transfer.

Section Limits.
(** [cy::Max] and [cy::Min] at type float (cyCore.h). *)
Variables cyMax cyMin : F32.t -> F32.t -> F32.t.

Definition ClampMin (limitMin : F32.t) (c : t) : t :=
  Apply (fun v => cyMax v limitMin) c.
Definition ClampMax (limitMax : F32.t) (c : t) : t :=
  Apply (fun v => cyMin v limitMax) c.
Definition Clamp (limitMin limitMax : F32.t) (c : t) : t :=
  ClampMax limitMax (ClampMin limitMin c).
End Limits.

End Color.

(** ** class ColorA *)

Module ColorA.

Record t : Type := mk { r : F32.t; g : F32.t; b : F32.t; a : F32.t }.

Local Open Scope f32_scope.

(** [ColorA( Color const &c, float _a )] *)
Definition of_Color (c : Color.t) (_a : F32.t) : t :=
  mk (Color.r c) (Color.g c) (Color.b c) _a.

Definition Sum (c : t) : F32.t := r c + g c + b c.
Definition Gray (c : t) : F32.t := Sum c / F32.of_Z 3.
Definition Min (c : t) : F32.t :=
  let mrg := if r c < g c then r c else g c in
  let mba := if b c < a c then b c else a c in
  if mrg < mba then mrg else mba.
Definition Max (c : t) : F32.t :=
  let mrg := if r c > g c then r c else g c in
  let mba := if b c > a c then b c else a c in
  if mrg > mba then mrg else mba.

(** [Apply] assigns [r], [g] and [b]; the field [a] keeps its value. *)
Definition Apply (func : F32.t -> F32.t) (c : t) : t :=
  mk (func (r c)) (func (g c)) (func (b c)) (a c).
Definition GetApplied (func : F32.t -> F32.t) (c : t) : t := Apply func c.

Definition neg (c : t) : t := mk (- r c) (- g c) (- b c) (- a c).
Definition add (x c : t) : t := mk (r x + r c) (g x + g c) (b x + b c) (a x + a c).
Definition sub (x c : t) : t := mk (r x - r c) (g x - g c) (b x - b c) (a x - a c).
Definition mul (x c : t) : t := mk (r x * r c) (g x * g c) (b x * b c) (a x * a c).
Definition div (x c : t) : t := mk (r x / r c) (g x / g c) (b x / b c) (a x / a c).
Definition addf (x : t) (n : F32.t) : t := mk (r x + n) (g x + n) (b x + n) (a x + n).
Definition subf (x : t) (n : F32.t) : t := mk (r x - n) (g x - n) (b x - n) (a x - n).
Definition mulf (x : t) (n : F32.t) : t := mk (r x * n) (g x * n) (b x * n) (a x * n).
Definition divf (x : t) (n : F32.t) : t := mk (r x / n) (g x / n) (b x / n) (a x / n).

Definition fadd (v : F32.t) (c : t) : t := addf c v.
Definition fsub (v : F32.t) (c : t) : t := neg (subf c v).
Definition fmul (v : F32.t) (c : t) : t := mulf c v.

Definition type_scalar_operator (op : arith_op) : option (t -> F32.t -> t) :=
  match op with
  | OpAdd => Some addf
  | OpSub => Some subf
  | OpMul => Some mulf
  | OpDiv => Some divf
  end.

Definition scalar_type_operator (op : arith_op) : option (F32.t -> t -> t) :=
  match op with
  | OpAdd => Some fadd
  | OpSub => Some fsub
  | OpMul => Some fmul
  | OpDiv => None
  end.

Definition eq (x c : t) : bool :=
  (r c == r x) && (g c == g x) && (b c == b x) && (a c == a x).
Definition ne (x c : t) : bool :=
  (r c != r x) || (g c != g x) || (b c != b x) || (a c != a x).

(** [explicit ColorA( float rgb, float _a )] *)
Definition of_scalar (rgb _a : F32.t) : t := mk rgb rgb rgb _a.

Definition Black (alpha : F32.t) : t := mk F32.zero F32.zero F32.zero alpha.
Definition White (alpha : F32.t) : t := mk F32.one F32.one F32.one alpha.

Definition IsNegative (c : t) : bool :=
  (r c < F32.of_Z 0) || (g c < F32.of_Z 0) || (b c < F32.of_Z 0) || (a c < F32.of_Z 0).
Definition IsBlack (c : t) : bool :=
  (r c == F32.zero) && (g c == F32.zero) && (b c == F32.zero).
Definition IsFinite (c : t) : bool :=
  cy.IsFinite (r c) && cy.IsFinite (g c) && cy.IsFinite (b c) && cy.IsFinite (a c).

Definition Abs (c : t) : t := Apply F32.abs c.

Section Transfer.
Variable powf : F32.t -> F32.t -> F32.t.

Definition Linear2sRGB (c : t) : t :=
  of_Color (Color.Linear2sRGB powf (Color.mk (r c) (g c) (b c))) (a c).
Definition sRGB2Linear (c : t) : t :=
  of_Color (Color.sRGB2Linear powf (Color.mk (r c) (g c) (b c))) (a c).
End Transfer.

Section Limits.
Variables cyMax cyMin : F32.t -> F32.t -> F32.t.

Definition ClampMin (limitMin : F32.t) (c : t) : t :=
  Apply (fun v => cyMax v limitMin) c.
Definition ClampMax (limitMax : F32.t) (c : t) : t :=
  Apply (fun v => cyMin v limitMax) c.
Definition Clamp (limitMin limitMax : F32.t) (c : t) : t :=
  ClampMax limitMax (ClampMin limitMin c).
End Limits.

End ColorA.

(** ** class Color24 *)

(** Sequencing of conversions that may be undefined. *)
Definition bind {A B : Type} (o : option A) (k : A -> option B) : option B :=
  match o with
  | Some x => k x
  | None => None
  end.
Notation "x <- o ;; k" := (bind o (fun x => k))
  (at level 61, o at next level, right associativity).

Module Color24.

Record t : Type := mk { r : Z; g : Z; b : Z }.

(** The fields are [uint8_t]. *)
Definition wf (c : t) : Prop := is_uint8 (r c) /\ is_uint8 (g c) /\ is_uint8 (b c).

(** [Color24( Color const &c )] and [Color24( ColorA const &c )] *)
Definition of_Color (c : Color.t) : option t :=
  r' <- FloatToByte (Color.r c) ;;
  g' <- FloatToByte (Color.g c) ;;
  b' <- FloatToByte (Color.b c) ;;
  Some (mk r' g' b').
Definition of_ColorA (c : ColorA.t) : option t :=
  r' <- FloatToByte (ColorA.r c) ;;
  g' <- FloatToByte (ColorA.g c) ;;
  b' <- FloatToByte (ColorA.b c) ;;
  Some (mk r' g' b').

(** Each byte is promoted to [int], converted to float and divided by
    [255.0f]. *)
Definition ToColor (c : t) : Color.t :=
  Color.mk (F32.of_Z (r c) / F32.of_Z 255)%f32
           (F32.of_Z (g c) / F32.of_Z 255)%f32
           (F32.of_Z (b c) / F32.of_Z 255)%f32.
Definition ToColorA (c : t) : ColorA.t :=
  ColorA.mk (F32.of_Z (r c) / F32.of_Z 255)%f32
            (F32.of_Z (g c) / F32.of_Z 255)%f32
            (F32.of_Z (b c) / F32.of_Z 255)%f32
            F32.one.

(** [Sum] is an [int]; the division of [Gray] is that of C++ on [int],
    which truncates. *)
Definition Sum (c : t) : Z := r c + g c + b c.
Definition Gray (c : t) : Z := uint8_cast (Z.quot (Sum c + 1) 3).
Definition Min (c : t) : Z :=
  if r c <? g c then (if r c <? b c then r c else b c)
  else (if g c <? b c then g c else b c).
Definition Max (c : t) : Z :=
  if r c >? g c then (if r c >? b c then r c else b c)
  else (if g c >? b c then g c else b c).

Definition ClampMin (limitMin : Z) (c : t) : t :=
  mk (cy.Max_u8 (r c) limitMin) (cy.Max_u8 (g c) limitMin) (cy.Max_u8 (b c) limitMin).
Definition ClampMax (limitMax : Z) (c : t) : t :=
  mk (cy.Min_u8 (r c) limitMax) (cy.Min_u8 (g c) limitMax) (cy.Min_u8 (b c) limitMax).
Definition Clamp (limitMin limitMax : Z) (c : t) : t :=
  ClampMax limitMax (ClampMin limitMin c).

Definition IsBlack (c : t) : bool := (r c =? 0) && (g c =? 0) && (b c =? 0).

Definition Black : t := mk 0 0 0.
Definition White : t := mk 255 255 255.

Definition eq (x c : t) : bool :=
  (r c =? r x) && (g c =? g x) && (b c =? b x).
Definition ne (x c : t) : bool :=
  negb (r c =? r x) || negb (g c =? g x) || negb (b c =? b x).

End Color24.

(** ** class Color32 *)

Module Color32.

Record t : Type := mk { r : Z; g : Z; b : Z; a : Z }.

Definition wf (c : t) : Prop :=
  is_uint8 (r c) /\ is_uint8 (g c) /\ is_uint8 (b c) /\ is_uint8 (a c).

(** [Color32( Color const &c, float _a )] and [Color32( ColorA const &c )] *)
Definition of_Color (c : Color.t) (_a : F32.t) : option t :=
  r' <- FloatToByte (Color.r c) ;;
  g' <- FloatToByte (Color.g c) ;;
  b' <- FloatToByte (Color.b c) ;;
  a' <- FloatToByte _a ;;
  Some (mk r' g' b' a').
Definition of_ColorA (c : ColorA.t) : option t :=
  r' <- FloatToByte (ColorA.r c) ;;
  g' <- FloatToByte (ColorA.g c) ;;
  b' <- FloatToByte (ColorA.b c) ;;
  a' <- FloatToByte (ColorA.a c) ;;
  Some (mk r' g' b' a').

(** [Color32( Color24 const &c, uint8_t _a )] *)
Definition of_Color24 (c : Color24.t) (_a : Z) : t :=
  mk (Color24.r c) (Color24.g c) (Color24.b c) _a.

Definition ToColor (c : t) : Color.t :=
  Color.mk (F32.of_Z (r c) / F32.of_Z 255)%f32
           (F32.of_Z (g c) / F32.of_Z 255)%f32
           (F32.of_Z (b c) / F32.of_Z 255)%f32.
Definition ToColorA (c : t) : ColorA.t :=
  ColorA.mk (F32.of_Z (r c) / F32.of_Z 255)%f32
            (F32.of_Z (g c) / F32.of_Z 255)%f32
            (F32.of_Z (b c) / F32.of_Z 255)%f32
            (F32.of_Z (a c) / F32.of_Z 255)%f32.

Definition Sum (c : t) : Z := r c + g c + b c.
Definition Gray (c : t) : Z := uint8_cast (Z.quot (Sum c + 1) 3).
Definition Min (c : t) : Z :=
  let mrg := if r c <? g c then r c else g c in
  let mba := if b c <? a c then b c else a c in
  if mrg <? mba then mrg else mba.
Definition Max (c : t) : Z :=
  let mrg := if r c >? g c then r c else g c in
  let mba := if b c >? a c then b c else a c in
  if mrg >? mba then mrg else mba.

Definition ClampMin (limitMin : Z) (c : t) : t :=
  mk (cy.Max_u8 (r c) limitMin) (cy.Max_u8 (g c) limitMin)
     (cy.Max_u8 (b c) limitMin) (cy.Max_u8 (a c) limitMin).
Definition ClampMax (limitMax : Z) (c : t) : t :=
  mk (cy.Min_u8 (r c) limitMax) (cy.Min_u8 (g c) limitMax)
     (cy.Min_u8 (b c) limitMax) (cy.Min_u8 (a c) limitMax).
Definition Clamp (limitMin limitMax : Z) (c : t) : t :=
  ClampMax limitMax (ClampMin limitMin c).

Definition IsBlack (c : t) : bool := (r c =? 0) && (g c =? 0) && (b c =? 0).

Definition Black (alpha : Z) : t := mk 0 0 0 alpha.
Definition White (alpha : Z) : t := mk 255 255 255 alpha.

Definition eq (x c : t) : bool :=
  (r c =? r x) && (g c =? g x) && (b c =? b x) && (a c =? a x).
Definition ne (x c : t) : bool :=
  negb (r c =? r x) || negb (g c =? g x) || negb (b c =? b x) || negb (a c =? a x).

End Color32.

(** ** Constructors defined after the classes *)

Definition Color_of_ColorA (c : ColorA.t) : Color.t :=
  Color.mk (ColorA.r c) (ColorA.g c) (ColorA.b c).
Definition Color_of_Color24 (c : Color24.t) : Color.t := Color24.ToColor c.
Definition Color_of_Color32 (c : Color32.t) : Color.t := Color32.ToColor c.
Definition ColorA_of_Color24 (c : Color24.t) (alpha : F32.t) : ColorA.t :=
  let rgb := Color24.ToColor c in
  ColorA.mk (Color.r rgb) (Color.g rgb) (Color.b rgb) alpha.
Definition ColorA_of_Color32 (c : Color32.t) : ColorA.t := Color32.ToColorA c.
Definition Color24_of_Color32 (c : Color32.t) : Color24.t :=
  Color24.mk (Color32.r c) (Color32.g c) (Color32.b c).

(** ** The sRGB transfer functions as the spec writes them, per channel *)

Section TransferSpec.
Variable pow : F32.t -> F32.t -> F32.t.
Local Open Scope f32_scope.

Definition linear_to_srgb_channel (c : F32.t) : F32.t :=
  if c < F32.lit 31308 10000000 then c * F32.lit 1292 100
  else pow c (F32.lit 41666 100000) * F32.lit 1055 1000 - F32.lit 55 1000.

Definition srgb_to_linear_channel (c : F32.t) : F32.t :=
  if c <= F32.lit 4045 100000 then c / F32.lit 1292 100
  else pow ((c + F32.lit 55 1000) / F32.lit 1055 1000) (F32.lit 24 10).
End TransferSpec.

(** ** Predicates on components *)

(** A finite float in the closed interval from 0.0 to 1.0. *)
Definition unit_interval (x : F32.t) : bool :=
  (F32.is_finite x && (F32.zero <= x) && (x <= F32.one))%f32.

Definition Color_all (P : F32.t -> bool) (c : Color.t) : bool :=
  P (Color.r c) && P (Color.g c) && P (Color.b c).
Definition ColorA_all (P : F32.t -> bool) (c : ColorA.t) : bool :=
  P (ColorA.r c) && P (ColorA.g c) && P (ColorA.b c) && P (ColorA.a c).

Definition Color_any (P : F32.t -> bool) (c : Color.t) : bool :=
  P (Color.r c) || P (Color.g c) || P (Color.b c).
Definition ColorA_any (P : F32.t -> bool) (c : ColorA.t) : bool :=
  P (ColorA.r c) || P (ColorA.g c) || P (ColorA.b c) || P (ColorA.a c).

(** A float between two bounds. *)
Definition within (lo hi x : F32.t) : bool := F32.leb lo x && F32.leb x hi.

(** The same float, or two zeros (whose signs may differ). *)
Definition equal_up_to_zero_sign (x y : F32.t) : Prop :=
  x = y \/ (F32.is_zero y = true /\ F32.is_zero x = true).

(** The free functions [Abs] on the float classes. *)
Definition Abs_Color (c : Color.t) : Color.t := Color.GetApplied F32.abs c.
Definition Abs_ColorA (c : ColorA.t) : ColorA.t := ColorA.GetApplied F32.abs c.

(** Byte to float of one component, as [ToColor] and [ToColorA] write it. *)
Definition byte_to_float (v : Z) : F32.t := (F32.of_Z v / F32.of_Z 255)%f32.

Definition ColorA_forall2 (R : F32.t -> F32.t -> Prop) (x y : ColorA.t) : Prop :=
  R (ColorA.r x) (ColorA.r y) /\ R (ColorA.g x) (ColorA.g y)
  /\ R (ColorA.b x) (ColorA.b y) /\ R (ColorA.a x) (ColorA.a y).

(** * Properties *)

(** ** Facts about binary32 arithmetic *)

Section FloatFacts.

Local Open Scope f32_scope.

Lemma F32_add_comm (x y : F32.t) : x + y = y + x.
Proof.
  unfold F32.add.
  destruct x as [sx|sx| |sx mx ex], y as [sy|sy| |sy my ey]; simpl;
    try reflexivity; try (destruct sx, sy; reflexivity).
  rewrite (Z.min_comm ey ex). f_equal. apply Z.add_comm.
Qed.

Lemma F32_mul_comm (x y : F32.t) : x * y = y * x.
Proof.
  unfold F32.mul.
  destruct x as [sx|sx| |sx mx ex], y as [sy|sy| |sy my ey]; simpl;
    try reflexivity; try (rewrite (xorb_comm sy sx); reflexivity).
  rewrite (xorb_comm sy sx), (Pos.mul_comm my mx), (Z.add_comm ey ex).
  reflexivity.
Qed.

(** Rounding treats the sign apart from the magnitude. *)
Lemma binary_round_aux_opp (s : bool) (m e : Z) (l : location) :
  SFopp (binary_round_aux F32.prec F32.emax s m e l)
  = binary_round_aux F32.prec F32.emax (negb s) m e l.
Proof.
  unfold binary_round_aux.
  destruct (shr_fexp F32.prec F32.emax m e l) as [mrs' e'].
  destruct (shr_fexp F32.prec F32.emax _ e' loc_Exact) as [mrs'' e''].
  destruct (shr_m mrs''); try reflexivity.
  destruct (e'' <=? F32.emax - F32.prec)%Z; reflexivity.
Qed.

Lemma binary_round_opp (s : bool) (m : positive) (e : Z) :
  SFopp (binary_round F32.prec F32.emax s m e)
  = binary_round F32.prec F32.emax (negb s) m e.
Proof.
  unfold binary_round.
  destruct (shl_align m e _) as [mz ez].
  apply binary_round_aux_opp.
Qed.

(** Negating [u - v] gives [v - u], up to the sign of a zero result. *)
Lemma F32_neg_sub (u v : F32.t) :
  - (u - v) = v - u \/ (F32.is_zero (v - u) = true /\ F32.is_zero (- (u - v)) = true).
Proof.
  unfold F32.neg, F32.sub.
  destruct u as [su|su| |su mu eu], v as [sv|sv| |sv mv ev]; simpl;
    try (left; reflexivity);
    try (destruct su, sv; simpl; solve [left; reflexivity | right; split; reflexivity]);
    try (destruct sv; left; reflexivity);
    try (destruct su; left; reflexivity).
  rewrite (Z.min_comm ev eu).
  set (ez := Z.min eu ev).
  set (A := cond_Zopp su (Zpos (fst (shl_align mu eu ez)))).
  set (B := cond_Zopp sv (Zpos (fst (shl_align mv ev ez)))).
  replace (B - A)%Z with (- (A - B))%Z by ring.
  destruct (A - B)%Z as [|p|p]; simpl.
  - right; split; reflexivity.
  - left. apply binary_round_opp.
  - left. apply binary_round_opp.
Qed.

Lemma F32_neb_negb_eqb (x y : F32.t) : (x != y) = negb (x == y).
Proof.
  unfold F32.neb, F32.eqb, SFeqb.
  destruct (SFcompare x y) as [[ | | ]|]; reflexivity.
Qed.

(** The order on floats that are not NaN. *)

Lemma SFcompare_antisym (x y : F32.t) :
  SFcompare y x = option_map CompOpp (SFcompare x y).
Proof.
  destruct x as [sx|sx| |sx mx ex], y as [sy|sy| |sy my ey]; simpl;
    try reflexivity;
    try (destruct sx; reflexivity); try (destruct sy; reflexivity);
    try (destruct sx, sy; reflexivity).
  destruct sx, sy; simpl; try reflexivity;
    rewrite (Z.compare_antisym ex ey);
    destruct (ex ?= ey)%Z; simpl; try reflexivity;
    rewrite (Pos.compare_cont_antisym mx my Eq); simpl;
    try rewrite CompOpp_involutive; reflexivity.
Qed.

Lemma F32_leb_total (x y : F32.t) :
  F32.is_nan x = false -> F32.is_nan y = false ->
  (x < y) = false -> (y <= x) = true.
Proof.
  unfold F32.ltb, F32.leb, SFltb, SFleb. intros Hx Hy.
  rewrite (SFcompare_antisym x y).
  destruct (SFcompare x y) as [[ | | ]|] eqn:E; simpl; try reflexivity; try discriminate.
  destruct x, y; simpl in *; discriminate.
Qed.

Lemma F32_ltb_leb (x y : F32.t) : (x < y) = true -> (x <= y) = true.
Proof.
  unfold F32.ltb, F32.leb, SFltb, SFleb.
  destruct (SFcompare x y) as [[ | | ]|]; intros; try reflexivity; discriminate.
Qed.

Lemma F32_leb_refl (x : F32.t) : F32.is_nan x = false -> (x <= x) = true.
Proof.
  unfold F32.leb, SFleb.
  destruct x as [s|s| |s m e]; simpl; intros H; try reflexivity; try discriminate.
  - destruct s; reflexivity.
  - destruct s; rewrite Z.compare_refl;
      change (Pos.compare_cont Eq m m) with (Pos.compare m m);
      rewrite Pos.compare_refl; reflexivity.
Qed.

Lemma F32_leb_trans (x y z : F32.t) :
  (x <= y) = true -> (y <= z) = true -> (x <= z) = true.
Proof.
  unfold F32.leb, SFleb.
  destruct x as [sx|sx| |sx mx ex], y as [sy|sy| |sy my ey],
           z as [sz|sz| |sz mz ez]; simpl;
    try discriminate; try reflexivity;
    try (destruct sx; simpl; try discriminate; try reflexivity);
    try (destruct sy; simpl; try discriminate; try reflexivity);
    try (destruct sz; simpl; try discriminate; try reflexivity).
  all: change (Pos.compare_cont Eq) with Pos.compare.
  all: destruct (Z.compare_spec ex ey); destruct (Z.compare_spec ey ez);
       destruct (Z.compare_spec ex ez); simpl; try discriminate;
       try reflexivity; try lia; subst.
  all: destruct (Pos.compare_spec mx my); destruct (Pos.compare_spec my mz);
       destruct (Pos.compare_spec mx mz); simpl; try discriminate;
       try reflexivity; lia.
Qed.

End FloatFacts.

(** ** Checking a property on every byte *)

Section Bytes.

Lemma uint8_in_bytes (b : Z) : is_uint8 b -> In b all_bytes.
Proof.
  intros [Hlo Hhi]. unfold all_bytes.
  apply in_map_iff. exists (Z.to_nat b). split.
  - apply Z2Nat.id; assumption.
  - apply in_seq. lia.
Qed.

Lemma forall_bytes (P : Z -> bool) :
  forallb P all_bytes = true -> forall b, is_uint8 b -> P b = true.
Proof.
  intros Hall b Hb.
  rewrite forallb_forall in Hall.
  apply Hall, uint8_in_bytes, Hb.
Qed.

Lemma ClampInt_clamp (v : Z) : ClampInt v = clamp v 0 255.
Proof.
  unfold ClampInt, clamp, uint8_cast.
  destruct (Z.ltb_spec v 0); [lia|].
  destruct (Z.gtb_spec v 255); [lia|].
  rewrite Z.mod_small; lia.
Qed.

Lemma clamp_uint8 (v : Z) : is_uint8 (clamp v 0 255).
Proof. unfold is_uint8, clamp. lia. Qed.

End Bytes.

(** ** Float to byte *)

(** C1 (as amended).  In binary32 arithmetic, whenever [f*255 + 0.5f] is
    finite and its integral part [v] is representable as an [int],
    [FloatToByte f] is [clamp(v, 0, 255)], a value of [uint8_t], with no
    wrap-around; the conversion is undefined exactly when [f*255 + 0.5f]
    is NaN or infinite or its integral part is not an [int]; and a
    component of 2.0 gives the byte 255. *)
Theorem FloatToByte_policy :
  (forall (f : F32.t) (v : Z),
      F32.trunc (f * F32.of_Z 255 + F32.half)%f32 = Some v ->
      F32.INT_MIN <= v <= F32.INT_MAX ->
      FloatToByte f = Some (clamp v 0 255) /\ is_uint8 (clamp v 0 255))
  /\ (forall f : F32.t,
        FloatToByte f = None <->
        match F32.trunc (f * F32.of_Z 255 + F32.half)%f32 with
        | Some v => v < F32.INT_MIN \/ F32.INT_MAX < v
        | None => True
        end)
  /\ FloatToByte (F32.of_Z 2) = Some 255.
Proof.
  split; [|split].
  - intros f v Ht [Hlo Hhi]. split; [|apply clamp_uint8].
    unfold FloatToByte, F32.to_int. rewrite Ht.
    apply Z.leb_le in Hlo, Hhi. rewrite Hlo, Hhi. simpl.
    f_equal. apply ClampInt_clamp.
  - intros f. unfold FloatToByte, F32.to_int.
    destruct (F32.trunc _) as [v|]; [|tauto].
    destruct (Z.leb_spec F32.INT_MIN v), (Z.leb_spec v F32.INT_MAX); simpl;
      split; intros H'; try discriminate; try reflexivity; lia.
  - vm_compute. reflexivity.
Qed.

Lemma FloatToByte_policy_witness :
  F32.trunc (F32.of_Z (-1) * F32.of_Z 255 + F32.half)%f32 = Some (-254)
  /\ FloatToByte (F32.of_Z (-1)) = Some 0.
Proof.
  split; [reflexivity|].
  apply (proj1 FloatToByte_policy (F32.of_Z (-1)) (-254)).
  - reflexivity.
  - unfold F32.INT_MIN, F32.INT_MAX. lia.
Defined.

(** C1 (as stated) fails: [10000000.0f] is a finite float, the integral
    part of [f*255 + 0.5f] is 2550000128, which [clamp] would send to
    255, but it is no [int], so the conversion [int(...)] is undefined
    and no byte comes out. *)
Lemma FloatToByte_not_total :
  F32.is_finite (F32.of_Z 10000000) = true
  /\ option_map (fun v => clamp v 0 255)
       (F32.trunc (F32.of_Z 10000000 * F32.of_Z 255 + F32.half)%f32) = Some 255
  /\ FloatToByte (F32.of_Z 10000000) = None.
Proof. vm_compute. repeat split. Qed.

(** C2.  Every byte survives the trip to float and back:
    [FloatToByte(b / 255.0f) = b] for the 256 values of [b]. *)
Theorem FloatToByte_roundtrip (b : Z) :
  is_uint8 b -> FloatToByte (F32.of_Z b / F32.of_Z 255)%f32 = Some b.
Proof.
  intros Hb.
  pose (P := fun b => match FloatToByte (F32.of_Z b / F32.of_Z 255)%f32 with
                      | Some v => v =? b
                      | None => false
                      end).
  assert (HP : P b = true) by (apply forall_bytes; [vm_compute; reflexivity | exact Hb]).
  unfold P in HP.
  destruct (FloatToByte _) as [v|]; [|discriminate].
  apply Z.eqb_eq in HP. congruence.
Qed.

Lemma FloatToByte_roundtrip_witness :
  is_uint8 200 /\ FloatToByte (F32.of_Z 200 / F32.of_Z 255)%f32 = Some 200.
Proof.
  assert (H : is_uint8 200) by (unfold is_uint8; lia).
  split; [exact H | exact (FloatToByte_roundtrip 200 H)].
Defined.

(** ** Byte to float *)

Section ByteToFloat.

Local Open Scope f32_scope.

Lemma byte_to_unit (b : Z) :
  is_uint8 b -> unit_interval (F32.of_Z b / F32.of_Z 255) = true.
Proof.
  intros Hb.
  apply (forall_bytes (fun b => unit_interval (F32.of_Z b / F32.of_Z 255)));
    [vm_compute; reflexivity | exact Hb].
Qed.

Lemma byte_to_unit_ends :
  F32.of_Z 0 / F32.of_Z 255 = F32.zero /\ F32.of_Z 255 / F32.of_Z 255 = F32.one.
Proof. split; vm_compute; reflexivity. Qed.

End ByteToFloat.

(** C10.  For every [Color24] and [Color32] value, every component of
    [ToColor()] and of [ToColorA()], the converted alpha included, is a
    finite float between 0.0 and 1.0. *)
Theorem byte_to_float_in_unit_interval :
  (forall c : Color24.t, Color24.wf c ->
     Color_all unit_interval (Color24.ToColor c) = true
     /\ ColorA_all unit_interval (Color24.ToColorA c) = true)
  /\ (forall c : Color32.t, Color32.wf c ->
     Color_all unit_interval (Color32.ToColor c) = true
     /\ ColorA_all unit_interval (Color32.ToColorA c) = true).
Proof.
  split.
  - intros [r g b] (Hr & Hg & Hb). simpl in *.
    unfold Color_all, ColorA_all, Color24.ToColor, Color24.ToColorA; simpl.
    rewrite !byte_to_unit by assumption. split; reflexivity.
  - intros [r g b a] (Hr & Hg & Hb & Ha). simpl in *.
    unfold Color_all, ColorA_all, Color32.ToColor, Color32.ToColorA; simpl.
    rewrite !byte_to_unit by assumption. split; reflexivity.
Qed.

Lemma byte_to_float_in_unit_interval_witness :
  Color32.wf (Color32.mk 12 200 255 77)
  /\ ColorA_all unit_interval (Color32.ToColorA (Color32.mk 12 200 255 77)) = true.
Proof.
  assert (H : Color32.wf (Color32.mk 12 200 255 77))
    by (unfold Color32.wf, is_uint8; simpl; lia).
  split; [exact H|].
  exact (proj2 (proj2 byte_to_float_in_unit_interval _ H)).
Defined.

(** ** Gray of the byte classes *)

Section ByteGray.

Lemma gray_formula (s : Z) :
  0 <= s <= 765 ->
  let q := uint8_cast (Z.quot (s + 1) 3) in
  q = Z.quot (s + 1) 3 /\ q = (s + 1) / 3 /\ is_uint8 q
  /\ -1 <= 3 * q - s <= 1
  /\ (s mod 3 = 0 -> q = s / 3)
  /\ (s mod 3 = 1 -> q = s / 3)
  /\ (s mod 3 = 2 -> q = s / 3 + 1).
Proof.
  intros Hs q. unfold q, uint8_cast, is_uint8.
  rewrite Z.quot_div_nonneg by lia.
  assert (Hq : 0 <= (s + 1) / 3 < 256)
    by (split; [apply Z.div_pos; lia | apply Z.div_lt_upper_bound; lia]).
  rewrite Z.mod_small by exact Hq.
  repeat split; try lia;
    pose proof (Z.div_mod (s + 1) 3 ltac:(lia));
    pose proof (Z.mod_pos_bound (s + 1) 3 ltac:(lia));
    pose proof (Z.div_mod s 3 ltac:(lia));
    pose proof (Z.mod_pos_bound s 3 ltac:(lia)); lia.
Qed.

End ByteGray.

(** C4.  For every [Color24] and [Color32] value, [Gray()] is
    [(Sum()+1)/3] under truncating division; that is the integer nearest
    to Sum/3 (a remainder of 2 rounds up, a remainder of 1 rounds down);
    the value is a [uint8_t], so the narrowing cast loses nothing; and
    [Color24(255,255,255).Gray()] is 255. *)
Theorem Gray_nearest_third :
  (forall c : Color24.t, Color24.wf c ->
     Color24.Gray c = Z.quot (Color24.Sum c + 1) 3
     /\ is_uint8 (Color24.Gray c)
     /\ -1 <= 3 * Color24.Gray c - Color24.Sum c <= 1
     /\ (Color24.Sum c mod 3 = 2 -> Color24.Gray c = Color24.Sum c / 3 + 1)
     /\ (Color24.Sum c mod 3 = 1 -> Color24.Gray c = Color24.Sum c / 3))
  /\ (forall c : Color32.t, Color32.wf c ->
     Color32.Gray c = Z.quot (Color32.Sum c + 1) 3
     /\ is_uint8 (Color32.Gray c)
     /\ -1 <= 3 * Color32.Gray c - Color32.Sum c <= 1
     /\ (Color32.Sum c mod 3 = 2 -> Color32.Gray c = Color32.Sum c / 3 + 1)
     /\ (Color32.Sum c mod 3 = 1 -> Color32.Gray c = Color32.Sum c / 3))
  /\ Color24.Gray (Color24.mk 255 255 255) = 255.
Proof.
  split; [|split].
  - intros [r g b] (Hr & Hg & Hb). unfold is_uint8 in *; simpl in *.
    unfold Color24.Gray.
    set (s := Color24.Sum _).
    assert (Hs : 0 <= s <= 765) by (unfold s, Color24.Sum; simpl; lia).
    destruct (gray_formula s Hs) as (H1 & H2 & H3 & H4 & H5 & H6 & H7).
    repeat split; try assumption; try apply H3; try apply H4.
  - intros [r g b a] (Hr & Hg & Hb & Ha). unfold is_uint8 in *; simpl in *.
    unfold Color32.Gray.
    set (s := Color32.Sum _).
    assert (Hs : 0 <= s <= 765) by (unfold s, Color32.Sum; simpl; lia).
    destruct (gray_formula s Hs) as (H1 & H2 & H3 & H4 & H5 & H6 & H7).
    repeat split; try assumption; try apply H3; try apply H4.
  - reflexivity.
Qed.

Lemma Gray_nearest_third_witness :
  Color24.wf (Color24.mk 10 20 33) /\ Color24.Gray (Color24.mk 10 20 33) = 21.
Proof.
  assert (H : Color24.wf (Color24.mk 10 20 33))
    by (unfold Color24.wf, is_uint8; simpl; lia).
  split; [exact H|].
  destruct (proj1 Gray_nearest_third _ H) as [E _].
  rewrite E. reflexivity.
Defined.

(** ** Conversions between the byte classes *)

(** C7.  Taking a [Color24] to [Color32] with any alpha byte and back
    gives the same colour; the [Color32] in between holds the same r, g
    and b (no rescaling) and the alpha it was given. *)
Theorem Color24_Color32_roundtrip (c : Color24.t) (alpha : Z) :
  Color24_of_Color32 (Color32.of_Color24 c alpha) = c
  /\ Color32.r (Color32.of_Color24 c alpha) = Color24.r c
  /\ Color32.g (Color32.of_Color24 c alpha) = Color24.g c
  /\ Color32.b (Color32.of_Color24 c alpha) = Color24.b c
  /\ Color32.a (Color32.of_Color24 c alpha) = alpha.
Proof.
  destruct c as [r g b].
  unfold Color24_of_Color32, Color32.of_Color24; simpl.
  repeat split.
Qed.

(** ** Test operators *)

Section TestOperators.

Lemma Color_ne_negb_eq (x y : Color.t) : Color.ne x y = negb (Color.eq x y).
Proof.
  unfold Color.ne, Color.eq.
  rewrite !F32_neb_negb_eqb, !negb_andb. reflexivity.
Qed.

Lemma ColorA_ne_negb_eq (x y : ColorA.t) : ColorA.ne x y = negb (ColorA.eq x y).
Proof.
  unfold ColorA.ne, ColorA.eq.
  rewrite !F32_neb_negb_eqb, !negb_andb. reflexivity.
Qed.

Lemma Color24_ne_negb_eq (x y : Color24.t) : Color24.ne x y = negb (Color24.eq x y).
Proof. unfold Color24.ne, Color24.eq. rewrite !negb_andb. reflexivity. Qed.

Lemma Color32_ne_negb_eq (x y : Color32.t) : Color32.ne x y = negb (Color32.eq x y).
Proof. unfold Color32.ne, Color32.eq. rewrite !negb_andb. reflexivity. Qed.

Lemma F32_eqb_nan (x y : F32.t) :
  F32.is_nan x = true \/ F32.is_nan y = true -> F32.eqb y x = false.
Proof.
  destruct x, y; simpl; intros [H|H]; try discriminate; reflexivity.
Qed.

Lemma Color_eq_nan (x y : Color.t) :
  Color_any F32.is_nan x || Color_any F32.is_nan y = true -> Color.eq x y = false.
Proof.
  unfold Color_any, Color.eq. intros H.
  repeat (apply orb_true_iff in H; destruct H as [H|H]);
    repeat (apply andb_false_iff; first [right; apply F32_eqb_nan; tauto | left]);
    apply F32_eqb_nan; tauto.
Qed.

Lemma ColorA_eq_nan (x y : ColorA.t) :
  ColorA_any F32.is_nan x || ColorA_any F32.is_nan y = true -> ColorA.eq x y = false.
Proof.
  unfold ColorA_any, ColorA.eq. intros H.
  repeat (apply orb_true_iff in H; destruct H as [H|H]);
    repeat (apply andb_false_iff; first [right; apply F32_eqb_nan; tauto | left]);
    apply F32_eqb_nan; tauto.
Qed.

End TestOperators.

(** C9.  In each of the four classes [x != y] is the negation of
    [x == y]: one is true exactly when the other is false.  On floats
    this covers NaN: when a component of either operand is NaN, [==] is
    false and [!=] is true. *)
Theorem ne_is_not_eq :
  (forall x y : Color.t, Color.ne x y = negb (Color.eq x y))
  /\ (forall x y : ColorA.t, ColorA.ne x y = negb (ColorA.eq x y))
  /\ (forall x y : Color24.t, Color24.ne x y = negb (Color24.eq x y))
  /\ (forall x y : Color32.t, Color32.ne x y = negb (Color32.eq x y))
  /\ (forall x y : Color.t,
        Color_any F32.is_nan x || Color_any F32.is_nan y = true ->
        Color.eq x y = false /\ Color.ne x y = true)
  /\ (forall x y : ColorA.t,
        ColorA_any F32.is_nan x || ColorA_any F32.is_nan y = true ->
        ColorA.eq x y = false /\ ColorA.ne x y = true).
Proof.
  repeat split.
  - apply Color_ne_negb_eq.
  - apply ColorA_ne_negb_eq.
  - apply Color24_ne_negb_eq.
  - apply Color32_ne_negb_eq.
  - apply Color_eq_nan; assumption.
  - rewrite Color_ne_negb_eq, Color_eq_nan by assumption. reflexivity.
  - apply ColorA_eq_nan; assumption.
  - rewrite ColorA_ne_negb_eq, ColorA_eq_nan by assumption. reflexivity.
Qed.

Lemma ne_is_not_eq_witness :
  ColorA_any F32.is_nan (ColorA.mk F32.one F32.nan F32.zero F32.one)
  || ColorA_any F32.is_nan (ColorA.mk F32.one F32.nan F32.zero F32.one) = true
  /\ ColorA.eq (ColorA.mk F32.one F32.nan F32.zero F32.one)
               (ColorA.mk F32.one F32.nan F32.zero F32.one) = false
  /\ ColorA.ne (ColorA.mk F32.one F32.nan F32.zero F32.one)
               (ColorA.mk F32.one F32.nan F32.zero F32.one) = true.
Proof.
  split; [reflexivity|].
  apply (proj2 (proj2 (proj2 (proj2 (proj2 ne_is_not_eq))))).
  reflexivity.
Defined.

(** ** Colour space conversion *)

(** C6.  [Linear2sRGB] and [sRGB2Linear] apply the two transfer
    functions to r, g and b, for [Color] and for [ColorA]; the result of
    the [ColorA] versions carries the alpha of the receiver. *)
Theorem sRGB_conversions (powf : F32.t -> F32.t -> F32.t) :
  (forall c : Color.t,
     Color.Linear2sRGB powf c = Color.Apply (linear_to_srgb_channel powf) c
     /\ Color.sRGB2Linear powf c = Color.Apply (srgb_to_linear_channel powf) c)
  /\ (forall c : ColorA.t,
     Color_of_ColorA (ColorA.Linear2sRGB powf c)
       = Color.Apply (linear_to_srgb_channel powf) (Color_of_ColorA c)
     /\ Color_of_ColorA (ColorA.sRGB2Linear powf c)
       = Color.Apply (srgb_to_linear_channel powf) (Color_of_ColorA c)
     /\ ColorA.a (ColorA.Linear2sRGB powf c) = ColorA.a c
     /\ ColorA.a (ColorA.sRGB2Linear powf c) = ColorA.a c).
Proof.
  split.
  - intros [r g b]. split; reflexivity.
  - intros [r g b a]. repeat split.
Qed.

(** ** Sum, Gray, Min and Max of ColorA *)

Section MinMax.

Local Open Scope f32_scope.

Lemma F32_min2 (x y : F32.t) :
  F32.is_nan x = false -> F32.is_nan y = false ->
  forall m, m = (if x < y then x else y) ->
  (m = x \/ m = y) /\ (m <= x) = true /\ (m <= y) = true /\ F32.is_nan m = false.
Proof.
  intros Hx Hy m ->.
  destruct (x < y) eqn:E.
  - repeat split; auto using F32_leb_refl, F32_ltb_leb.
  - repeat split; auto using F32_leb_refl, F32_leb_total.
Qed.

Lemma F32_max2 (x y : F32.t) :
  F32.is_nan x = false -> F32.is_nan y = false ->
  forall m, m = (if x > y then x else y) ->
  (m = x \/ m = y) /\ (x <= m) = true /\ (y <= m) = true /\ F32.is_nan m = false.
Proof.
  intros Hx Hy m ->. unfold F32.gtb.
  destruct (SFltb y x) eqn:E.
  - repeat split; auto using F32_leb_refl, F32_ltb_leb.
  - repeat split; auto using F32_leb_refl, F32_leb_total.
Qed.

Lemma ColorA_no_nan (c : ColorA.t) :
  ColorA_any F32.is_nan c = false ->
  F32.is_nan (ColorA.r c) = false /\ F32.is_nan (ColorA.g c) = false
  /\ F32.is_nan (ColorA.b c) = false /\ F32.is_nan (ColorA.a c) = false.
Proof.
  unfold ColorA_any. intros H.
  apply orb_false_iff in H. destruct H as [H Ha].
  apply orb_false_iff in H. destruct H as [H Hb].
  apply orb_false_iff in H. destruct H as [Hr Hg].
  auto.
Qed.

Lemma ColorA_Min_least (c : ColorA.t) :
  ColorA_any F32.is_nan c = false ->
  let m := ColorA.Min c in
  (m = ColorA.r c \/ m = ColorA.g c \/ m = ColorA.b c \/ m = ColorA.a c)
  /\ (m <= ColorA.r c) = true /\ (m <= ColorA.g c) = true
  /\ (m <= ColorA.b c) = true /\ (m <= ColorA.a c) = true.
Proof.
  intros H. destruct (ColorA_no_nan c H) as (Hr & Hg & Hb & Ha).
  unfold ColorA.Min.
  destruct (F32_min2 _ _ Hr Hg _ eq_refl) as (E1 & L1 & L2 & N1).
  destruct (F32_min2 _ _ Hb Ha _ eq_refl) as (E2 & L3 & L4 & N2).
  destruct (F32_min2 _ _ N1 N2 _ eq_refl) as (E3 & L5 & L6 & _).
  cbv zeta. split; [|repeat split; eauto using F32_leb_trans].
  destruct E3 as [-> | ->]; [destruct E1 as [-> | ->] | destruct E2 as [-> | ->]]; auto.
Qed.

Lemma ColorA_Max_greatest (c : ColorA.t) :
  ColorA_any F32.is_nan c = false ->
  let m := ColorA.Max c in
  (m = ColorA.r c \/ m = ColorA.g c \/ m = ColorA.b c \/ m = ColorA.a c)
  /\ (ColorA.r c <= m) = true /\ (ColorA.g c <= m) = true
  /\ (ColorA.b c <= m) = true /\ (ColorA.a c <= m) = true.
Proof.
  intros H. destruct (ColorA_no_nan c H) as (Hr & Hg & Hb & Ha).
  unfold ColorA.Max.
  destruct (F32_max2 _ _ Hr Hg _ eq_refl) as (E1 & L1 & L2 & N1).
  destruct (F32_max2 _ _ Hb Ha _ eq_refl) as (E2 & L3 & L4 & N2).
  destruct (F32_max2 _ _ N1 N2 _ eq_refl) as (E3 & L5 & L6 & _).
  cbv zeta. split; [|repeat split; eauto using F32_leb_trans].
  destruct E3 as [-> | ->]; [destruct E1 as [-> | ->] | destruct E2 as [-> | ->]]; auto.
Qed.

End MinMax.

(** C8 (as amended).  For every [ColorA] value, [Sum()] is [r+g+b] and
    [Gray()] is [Sum()/3.0f], whatever the alpha; when no component is
    NaN, [Min()] is one of r, g, b, a and is below or equal to each of
    the four, and [Max()] is one of them and above or equal to each. *)
Theorem ColorA_Sum_Gray_Min_Max :
  (forall c : ColorA.t,
     ColorA.Sum c = (ColorA.r c + ColorA.g c + ColorA.b c)%f32
     /\ ColorA.Gray c = (ColorA.Sum c / F32.of_Z 3)%f32)
  /\ (forall r g b a a' : F32.t,
     ColorA.Sum (ColorA.mk r g b a) = ColorA.Sum (ColorA.mk r g b a')
     /\ ColorA.Gray (ColorA.mk r g b a) = ColorA.Gray (ColorA.mk r g b a'))
  /\ (forall c : ColorA.t,
     ColorA_any F32.is_nan c = false ->
     (ColorA.Min c = ColorA.r c \/ ColorA.Min c = ColorA.g c
      \/ ColorA.Min c = ColorA.b c \/ ColorA.Min c = ColorA.a c)
     /\ ColorA_all (F32.leb (ColorA.Min c)) c = true
     /\ (ColorA.Max c = ColorA.r c \/ ColorA.Max c = ColorA.g c
      \/ ColorA.Max c = ColorA.b c \/ ColorA.Max c = ColorA.a c)
     /\ ColorA_all (fun x => F32.leb x (ColorA.Max c)) c = true).
Proof.
  split; [|split].
  - intros c. split; reflexivity.
  - intros r g b a a'. split; reflexivity.
  - intros c H.
    destruct (ColorA_Min_least c H) as (E1 & L1 & L2 & L3 & L4).
    destruct (ColorA_Max_greatest c H) as (E2 & G1 & G2 & G3 & G4).
    unfold ColorA_all. rewrite L1, L2, L3, L4, G1, G2, G3, G4.
    repeat split; assumption.
Qed.

Lemma ColorA_Sum_Gray_Min_Max_witness :
  ColorA_any F32.is_nan (ColorA.mk (F32.of_Z 3) (F32.of_Z 7) (F32.of_Z 5) (F32.of_Z 1)) = false
  /\ ColorA_all (F32.leb (ColorA.Min (ColorA.mk (F32.of_Z 3) (F32.of_Z 7) (F32.of_Z 5) (F32.of_Z 1))))
       (ColorA.mk (F32.of_Z 3) (F32.of_Z 7) (F32.of_Z 5) (F32.of_Z 1)) = true.
Proof.
  split; [reflexivity|].
  apply (proj2 (proj2 ColorA_Sum_Gray_Min_Max)).
  reflexivity.
Defined.

(** C8 (as stated) fails on a NaN: [ColorA(0, NaN, 5, 5).Min()] is 5,
    although the stored r is 0; and [ColorA(9, NaN, 5, 5).Max()] is 5,
    although the stored r is 9. *)
Lemma ColorA_Min_Max_nan :
  ColorA.Min (ColorA.mk (F32.of_Z 0) F32.nan (F32.of_Z 5) (F32.of_Z 5)) = F32.of_Z 5
  /\ F32.ltb (F32.of_Z 0) (F32.of_Z 5) = true
  /\ ColorA.Max (ColorA.mk (F32.of_Z 9) F32.nan (F32.of_Z 5) (F32.of_Z 5)) = F32.of_Z 5
  /\ F32.ltb (F32.of_Z 5) (F32.of_Z 9) = true.
Proof. vm_compute. repeat split. Qed.

(** ** Limit methods *)

Section FloatLimits.

Variables cyMax cyMin : F32.t -> F32.t -> F32.t.

(** What a maximum and a minimum give on operands that are not NaN. *)
Hypothesis cyMax_pick : forall x y, cyMax x y = x \/ cyMax x y = y.
Hypothesis cyMin_pick : forall x y, cyMin x y = x \/ cyMin x y = y.
Hypothesis cyMax_above : forall x y,
  F32.is_nan x = false -> F32.is_nan y = false ->
  F32.leb x (cyMax x y) = true /\ F32.leb y (cyMax x y) = true.
Hypothesis cyMin_below : forall x y,
  F32.is_nan x = false -> F32.is_nan y = false ->
  F32.leb (cyMin x y) x = true /\ F32.leb (cyMin x y) y = true.

Lemma leb_not_nan (x y : F32.t) :
  F32.leb x y = true -> F32.is_nan x = false /\ F32.is_nan y = false.
Proof. destruct x, y; simpl; intros H; try discriminate; split; reflexivity. Qed.

Lemma clamp_channel (lo hi v : F32.t) :
  F32.leb lo hi = true -> F32.is_nan v = false ->
  within lo hi (cyMin (cyMax v lo) hi) = true.
Proof.
  intros Hb Hv. destruct (leb_not_nan _ _ Hb) as [Nlo Nhi].
  destruct (cyMax_above v lo Hv Nlo) as [_ Hlo].
  assert (Nm : F32.is_nan (cyMax v lo) = false)
    by (destruct (cyMax_pick v lo) as [-> | ->]; assumption).
  destruct (cyMin_below (cyMax v lo) hi Nm Nhi) as [_ Hhi].
  unfold within.
  destruct (cyMin_pick (cyMax v lo) hi) as [E | E].
  - rewrite E in Hhi |- *. rewrite Hlo, Hhi. reflexivity.
  - rewrite E. rewrite Hb, (F32_leb_refl hi Nhi). reflexivity.
Qed.

(** The colour channels of a [ColorA] are clamped. *)
Lemma ColorA_Clamp_rgb (lo hi : F32.t) (c : ColorA.t) :
  F32.leb lo hi = true -> Color_any F32.is_nan (Color_of_ColorA c) = false ->
  Color_all (within lo hi) (Color_of_ColorA (ColorA.Clamp cyMax cyMin lo hi c)) = true.
Proof.
  intros Hb Hc. destruct c as [r g b a]. unfold Color_any in Hc; simpl in Hc.
  apply orb_false_iff in Hc. destruct Hc as [Hc Nb].
  apply orb_false_iff in Hc. destruct Hc as [Nr Ng].
  unfold Color_all; simpl.
  rewrite !clamp_channel by assumption. reflexivity.
Qed.

End FloatLimits.

(** The assumptions on [cy::Max] and [cy::Min] are met by the comparison
    based maximum and minimum. *)
Lemma ColorA_Clamp_rgb_instance (lo hi : F32.t) (c : ColorA.t) :
  F32.leb lo hi = true -> Color_any F32.is_nan (Color_of_ColorA c) = false ->
  Color_all (within lo hi)
    (Color_of_ColorA (ColorA.Clamp cy.Max_f32 cy.Min_f32 lo hi c)) = true.
Proof.
  apply ColorA_Clamp_rgb; unfold cy.Max_f32, cy.Min_f32; intros x y.
  - destruct (F32.ltb x y); auto.
  - destruct (F32.ltb y x); auto.
  - intros Hx Hy. destruct (F32.ltb x y) eqn:E;
      auto using F32_leb_refl, F32_ltb_leb, F32_leb_total.
  - intros Hx Hy. destruct (F32.ltb y x) eqn:E;
      auto using F32_leb_refl, F32_ltb_leb, F32_leb_total.
Qed.

Section ByteLimits.

(** [Color32::Clamp] clamps the four bytes, alpha included. *)
Lemma Color32_Clamp_all (lo hi : Z) (c : Color32.t) :
  lo <= hi ->
  lo <= Color32.r (Color32.Clamp lo hi c) <= hi
  /\ lo <= Color32.g (Color32.Clamp lo hi c) <= hi
  /\ lo <= Color32.b (Color32.Clamp lo hi c) <= hi
  /\ lo <= Color32.a (Color32.Clamp lo hi c) <= hi.
Proof.
  intros H. destruct c as [r g b a]; simpl.
  unfold cy.Min_u8, cy.Max_u8. lia.
Qed.

End ByteLimits.

(** C3.  [ColorA::Clamp] goes through [ColorA::Apply], which assigns r,
    g and b only: for any [cy::Max] and [cy::Min] the alpha after
    [Clamp], [ClampMin] or [ClampMax] is the alpha before, so
    [ColorA(0.5, 0.5, 0.5, 2).Clamp(0, 1)] keeps the alpha 2, which is
    not within the bounds 0 and 1. *)
Theorem ColorA_Clamp_leaves_alpha (cyMax cyMin : F32.t -> F32.t -> F32.t) :
  (forall (lo hi : F32.t) (c : ColorA.t),
     ColorA.a (ColorA.ClampMin cyMax lo c) = ColorA.a c
     /\ ColorA.a (ColorA.ClampMax cyMin hi c) = ColorA.a c
     /\ ColorA.a (ColorA.Clamp cyMax cyMin lo hi c) = ColorA.a c)
  /\ F32.leb F32.zero F32.one = true
  /\ ColorA.a (ColorA.Clamp cyMax cyMin F32.zero F32.one
                 (ColorA.mk F32.half F32.half F32.half (F32.of_Z 2))) = F32.of_Z 2
  /\ F32.leb (F32.of_Z 2) F32.one = false.
Proof.
  split; [|repeat split].
  intros lo hi [r g b a]. repeat split.
Qed.

(** ** Operators with the scalar on the left *)

Section ScalarLeft.

Local Open Scope f32_scope.

Lemma Color_fadd_components (v : F32.t) (c : Color.t) :
  Color.fadd v c = Color.mk (v + Color.r c) (v + Color.g c) (v + Color.b c).
Proof.
  unfold Color.fadd, Color.addf.
  rewrite (F32_add_comm v (Color.r c)), (F32_add_comm v (Color.g c)),
    (F32_add_comm v (Color.b c)).
  reflexivity.
Qed.

Lemma Color_fmul_components (v : F32.t) (c : Color.t) :
  Color.fmul v c = Color.mk (v * Color.r c) (v * Color.g c) (v * Color.b c).
Proof.
  unfold Color.fmul, Color.mulf.
  rewrite (F32_mul_comm v (Color.r c)), (F32_mul_comm v (Color.g c)),
    (F32_mul_comm v (Color.b c)).
  reflexivity.
Qed.

Lemma ColorA_fadd_components (v : F32.t) (c : ColorA.t) :
  ColorA.fadd v c
  = ColorA.mk (v + ColorA.r c) (v + ColorA.g c) (v + ColorA.b c) (v + ColorA.a c).
Proof.
  unfold ColorA.fadd, ColorA.addf.
  rewrite (F32_add_comm v (ColorA.r c)), (F32_add_comm v (ColorA.g c)),
    (F32_add_comm v (ColorA.b c)), (F32_add_comm v (ColorA.a c)).
  reflexivity.
Qed.

Lemma ColorA_fmul_components (v : F32.t) (c : ColorA.t) :
  ColorA.fmul v c
  = ColorA.mk (v * ColorA.r c) (v * ColorA.g c) (v * ColorA.b c) (v * ColorA.a c).
Proof.
  unfold ColorA.fmul, ColorA.mulf.
  rewrite (F32_mul_comm v (ColorA.r c)), (F32_mul_comm v (ColorA.g c)),
    (F32_mul_comm v (ColorA.b c)), (F32_mul_comm v (ColorA.a c)).
  reflexivity.
Qed.

Lemma neg_sub_agrees (u v : F32.t) : equal_up_to_zero_sign (- (u - v)) (v - u).
Proof. apply F32_neg_sub. Qed.

End ScalarLeft.

(** C5 (as amended).  With the scalar on the left the classes [Color]
    and [ColorA] define [+], [-] and [*], and no [/].  [v+c] has the
    components [v+c_i] and [v*c] the components [v*c_i], and [v*c] is
    [c*v]; [v-c] is computed as [-(c-v)], whose components are those of
    [v-c_i] except that a zero may carry the other sign.  And
    [2.0f * Color(1,2,3)], [Color(1,2,3) * 2.0f] and [Color(2,4,6)] are
    one colour. *)
Theorem scalar_left_operators :
  (Color.scalar_type_operator OpAdd = Some Color.fadd
   /\ Color.scalar_type_operator OpSub = Some Color.fsub
   /\ Color.scalar_type_operator OpMul = Some Color.fmul
   /\ Color.scalar_type_operator OpDiv = None)
  /\ (ColorA.scalar_type_operator OpAdd = Some ColorA.fadd
   /\ ColorA.scalar_type_operator OpSub = Some ColorA.fsub
   /\ ColorA.scalar_type_operator OpMul = Some ColorA.fmul
   /\ ColorA.scalar_type_operator OpDiv = None)
  /\ (forall (v : F32.t) (c : Color.t),
     Color.fadd v c
       = Color.mk (v + Color.r c)%f32 (v + Color.g c)%f32 (v + Color.b c)%f32
     /\ Color.fmul v c
       = Color.mk (v * Color.r c)%f32 (v * Color.g c)%f32 (v * Color.b c)%f32
     /\ Color.fmul v c = Color.mulf c v
     /\ equal_up_to_zero_sign (Color.r (Color.fsub v c)) (v - Color.r c)%f32
     /\ equal_up_to_zero_sign (Color.g (Color.fsub v c)) (v - Color.g c)%f32
     /\ equal_up_to_zero_sign (Color.b (Color.fsub v c)) (v - Color.b c)%f32)
  /\ (forall (v : F32.t) (c : ColorA.t),
     ColorA.fadd v c
       = ColorA.mk (v + ColorA.r c)%f32 (v + ColorA.g c)%f32
                   (v + ColorA.b c)%f32 (v + ColorA.a c)%f32
     /\ ColorA.fmul v c
       = ColorA.mk (v * ColorA.r c)%f32 (v * ColorA.g c)%f32
                   (v * ColorA.b c)%f32 (v * ColorA.a c)%f32
     /\ ColorA.fmul v c = ColorA.mulf c v
     /\ equal_up_to_zero_sign (ColorA.r (ColorA.fsub v c)) (v - ColorA.r c)%f32
     /\ equal_up_to_zero_sign (ColorA.g (ColorA.fsub v c)) (v - ColorA.g c)%f32
     /\ equal_up_to_zero_sign (ColorA.b (ColorA.fsub v c)) (v - ColorA.b c)%f32
     /\ equal_up_to_zero_sign (ColorA.a (ColorA.fsub v c)) (v - ColorA.a c)%f32)
  /\ Color.fmul (F32.of_Z 2) (Color.mk (F32.of_Z 1) (F32.of_Z 2) (F32.of_Z 3))
       = Color.mk (F32.of_Z 2) (F32.of_Z 4) (F32.of_Z 6)
  /\ Color.mulf (Color.mk (F32.of_Z 1) (F32.of_Z 2) (F32.of_Z 3)) (F32.of_Z 2)
       = Color.mk (F32.of_Z 2) (F32.of_Z 4) (F32.of_Z 6)
  /\ Color.eq (Color.fmul (F32.of_Z 2) (Color.mk (F32.of_Z 1) (F32.of_Z 2) (F32.of_Z 3)))
              (Color.mulf (Color.mk (F32.of_Z 1) (F32.of_Z 2) (F32.of_Z 3)) (F32.of_Z 2))
       = true.
Proof.
  split; [repeat split|]. split; [repeat split|].
  split; [|split; [|repeat split]].
  - intros v c. split; [apply Color_fadd_components|].
    split; [apply Color_fmul_components|].
    split; [reflexivity|].
    destruct c as [r g b]; simpl. repeat split; apply neg_sub_agrees.
  - intros v c. split; [apply ColorA_fadd_components|].
    split; [apply ColorA_fmul_components|].
    split; [reflexivity|].
    destruct c as [r g b a]; simpl. repeat split; apply neg_sub_agrees.
Qed.

(** C5 (as stated) fails: no operator divides a float by a [Color] or by
    a [ColorA], while the operators dividing a colour by a float exist. *)
Lemma no_scalar_by_colour_division :
  Color.scalar_type_operator OpDiv = None
  /\ ColorA.scalar_type_operator OpDiv = None
  /\ Color.type_scalar_operator OpDiv = Some Color.divf
  /\ ColorA.type_scalar_operator OpDiv = Some ColorA.divf.
Proof. repeat split. Qed.

(** The sign of zero in [v - c]: [1.0f - Color(1,1,1)] has the
    components [-0.0f], where [1.0f - 1.0f] is [+0.0f]. *)
Lemma fsub_negative_zero :
  Color.fsub F32.one (Color.mk F32.one F32.one F32.one)
    = Color.mk (S754_zero true) (S754_zero true) (S754_zero true)
  /\ (F32.one - F32.one)%f32 = S754_zero false.
Proof. split; reflexivity. Qed.


(** * Further properties of the classes *)

(** ** Arithmetic of the float classes *)

Section FloatAlgebra.

Local Open Scope f32_scope.

Lemma F32_sub_add_neg (x y : F32.t) : x - y = x + - y.
Proof.
  unfold F32.sub, F32.add, F32.neg.
  destruct x as [sx|sx| |sx mx ex], y as [sy|sy| |sy my ey]; simpl;
    try reflexivity; destruct sx, sy; reflexivity.
Qed.

Lemma F32_neg_involutive (x : F32.t) : - - x = x.
Proof. destruct x as [s|s| |s m e]; simpl; try rewrite negb_involutive; reflexivity. Qed.



Lemma F32_eqb_sym (x y : F32.t) : (x == y) = (y == x).
Proof.
  unfold F32.eqb, SFeqb. rewrite (SFcompare_antisym y x).
  destruct (SFcompare y x) as [[ | | ]|]; reflexivity.
Qed.

Lemma F32_eqb_refl (x : F32.t) : (x == x) = negb (F32.is_nan x).
Proof.
  unfold F32.eqb, SFeqb.
  destruct x as [s|s| |s m e]; simpl; try reflexivity.
  - destruct s; reflexivity.
  - destruct s; rewrite Z.compare_refl;
      change (Pos.compare_cont Eq m m) with (Pos.compare m m);
      rewrite Pos.compare_refl; reflexivity.
Qed.

Lemma F32_eqb_zero (x : F32.t) : (x == F32.zero) = F32.is_zero x.
Proof. destruct x as [s|[|]| |[|] m e]; reflexivity. Qed.

Lemma F32_zero_not_negative (x : F32.t) :
  F32.is_zero x = true -> (x < F32.of_Z 0) = false.
Proof. destruct x; simpl; intros H; try discriminate; reflexivity. Qed.

Lemma F32_abs_not_negative (x : F32.t) : (F32.abs x < F32.of_Z 0) = false.
Proof. destruct x as [s|s| |s m e]; reflexivity. Qed.

Lemma F32_abs_idempotent (x : F32.t) : F32.abs (F32.abs x) = F32.abs x.
Proof. destruct x; reflexivity. Qed.

Lemma F32_div_zero (x : F32.t) (s : bool) : F32.is_finite (x / S754_zero s) = false.
Proof. destruct x; reflexivity. Qed.

Lemma F32_zero_sum (x y : F32.t) :
  F32.is_zero x = true -> F32.is_zero y = true -> F32.is_zero (x + y) = true.
Proof.
  destruct x as [[|]| | |], y as [[|]| | |]; simpl; intros Hx Hy;
    try discriminate; reflexivity.
Qed.

Lemma F32_zero_third (x : F32.t) :
  F32.is_zero x = true -> F32.is_zero (x / F32.of_Z 3) = true.
Proof. destruct x; simpl; intros H; try discriminate; reflexivity. Qed.

End FloatAlgebra.


(** X2.  In both float classes subtraction is addition of the negated
    operand, for a colour and for a scalar operand, and negating twice
    gives the colour back. *)
Theorem sub_is_add_of_neg :
  (forall x y : Color.t, Color.sub x y = Color.add x (Color.neg y))
  /\ (forall (x : Color.t) (n : F32.t), Color.subf x n = Color.addf x (F32.neg n))
  /\ (forall x : Color.t, Color.neg (Color.neg x) = x)
  /\ (forall x y : ColorA.t, ColorA.sub x y = ColorA.add x (ColorA.neg y))
  /\ (forall (x : ColorA.t) (n : F32.t), ColorA.subf x n = ColorA.addf x (F32.neg n))
  /\ (forall x : ColorA.t, ColorA.neg (ColorA.neg x) = x).
Proof.
  repeat split.
  - intros x y. unfold Color.sub, Color.add, Color.neg; simpl.
    rewrite !F32_sub_add_neg. reflexivity.
  - intros x n. unfold Color.subf, Color.addf.
    rewrite !F32_sub_add_neg. reflexivity.
  - intros [r g b]. unfold Color.neg; simpl.
    rewrite !F32_neg_involutive. reflexivity.
  - intros x y. unfold ColorA.sub, ColorA.add, ColorA.neg; simpl.
    rewrite !F32_sub_add_neg. reflexivity.
  - intros x n. unfold ColorA.subf, ColorA.addf.
    rewrite !F32_sub_add_neg. reflexivity.
  - intros [r g b a]. unfold ColorA.neg; simpl.
    rewrite !F32_neg_involutive. reflexivity.
Qed.


(** X4.  [==] on the float classes is symmetric, and a colour equals
    itself exactly when none of its components is NaN. *)
Theorem float_eq_symmetric_reflexive :
  (forall x y : Color.t, Color.eq x y = Color.eq y x)
  /\ (forall x : Color.t, Color.eq x x = negb (Color_any F32.is_nan x))
  /\ (forall x y : ColorA.t, ColorA.eq x y = ColorA.eq y x)
  /\ (forall x : ColorA.t, ColorA.eq x x = negb (ColorA_any F32.is_nan x)).
Proof.
  repeat split.
  - intros x y. unfold Color.eq.
    rewrite (F32_eqb_sym (Color.r y)), (F32_eqb_sym (Color.g y)), (F32_eqb_sym (Color.b y)).
    reflexivity.
  - intros x. unfold Color.eq, Color_any.
    rewrite !F32_eqb_refl, !negb_orb. reflexivity.
  - intros x y. unfold ColorA.eq.
    rewrite (F32_eqb_sym (ColorA.r y)), (F32_eqb_sym (ColorA.g y)),
      (F32_eqb_sym (ColorA.b y)), (F32_eqb_sym (ColorA.a y)).
    reflexivity.
  - intros x. unfold ColorA.eq, ColorA_any.
    rewrite !F32_eqb_refl, !negb_orb. reflexivity.
Qed.

(** ** Black, negative and absolute values *)

Section BlackNegative.

Local Open Scope f32_scope.

Lemma black_channels (r g b : F32.t) :
  (r == F32.zero) && (g == F32.zero) && (b == F32.zero) = true ->
  F32.is_zero r = true /\ F32.is_zero g = true /\ F32.is_zero b = true.
Proof.
  rewrite !F32_eqb_zero. intros H.
  apply andb_true_iff in H. destruct H as [H Hb].
  apply andb_true_iff in H. destruct H as [Hr Hg].
  auto.
Qed.

End BlackNegative.

(** X5.  A black colour has no negative colour channel, and its [Sum()]
    and [Gray()] are zero.  For [ColorA], [IsBlack()] does not look at
    the alpha, so a black [ColorA] is negative exactly when its alpha
    is. *)
Theorem black_is_zero :
  (forall c : Color.t, Color.IsBlack c = true ->
     Color.IsNegative c = false
     /\ F32.is_zero (Color.Sum c) = true /\ F32.is_zero (Color.Gray c) = true)
  /\ (forall c : ColorA.t, ColorA.IsBlack c = true ->
     ColorA.IsNegative c = F32.ltb (ColorA.a c) (F32.of_Z 0)
     /\ F32.is_zero (ColorA.Sum c) = true /\ F32.is_zero (ColorA.Gray c) = true)
  /\ (forall r g b a a' : F32.t,
     ColorA.IsBlack (ColorA.mk r g b a) = ColorA.IsBlack (ColorA.mk r g b a')).
Proof.
  split; [|split].
  - intros [r g b] H. apply black_channels in H. destruct H as (Hr & Hg & Hb).
    unfold Color.IsNegative, Color.Gray, Color.Sum; simpl.
    rewrite !F32_zero_not_negative by assumption.
    repeat split; auto using F32_zero_sum, F32_zero_third.
  - intros [r g b a] H. apply black_channels in H. destruct H as (Hr & Hg & Hb).
    unfold ColorA.IsNegative, ColorA.Gray, ColorA.Sum; simpl.
    rewrite !F32_zero_not_negative by assumption.
    repeat split; auto using F32_zero_sum, F32_zero_third.
  - reflexivity.
Qed.

Lemma black_is_zero_witness :
  ColorA.IsBlack (ColorA.mk (S754_zero true) F32.zero F32.zero (F32.of_Z (-1))) = true
  /\ ColorA.IsNegative (ColorA.mk (S754_zero true) F32.zero F32.zero (F32.of_Z (-1))) = true.
Proof.
  split; [reflexivity|].
  destruct (proj1 (proj2 black_is_zero)
              (ColorA.mk (S754_zero true) F32.zero F32.zero (F32.of_Z (-1))) eq_refl)
    as [E _].
  rewrite E. reflexivity.
Defined.

(** X6.  After [Abs()] no component of a [Color] is negative.  On a
    [ColorA] the method and the free function go through [Apply], which
    keeps the alpha: the result is negative exactly when the alpha was. *)
Theorem Abs_and_IsNegative :
  (forall c : Color.t,
     Color.IsNegative (Color.Abs c) = false
     /\ Color.IsNegative (Abs_Color c) = false
     /\ Color.Abs (Color.Abs c) = Color.Abs c)
  /\ (forall c : ColorA.t,
     ColorA.IsNegative (ColorA.Abs c) = F32.ltb (ColorA.a c) (F32.of_Z 0)
     /\ ColorA.IsNegative (Abs_ColorA c) = F32.ltb (ColorA.a c) (F32.of_Z 0)
     /\ ColorA.a (ColorA.Abs c) = ColorA.a c
     /\ ColorA.Abs (ColorA.Abs c) = ColorA.Abs c).
Proof.
  split.
  - intros [r g b].
    unfold Abs_Color, Color.GetApplied, Color.Abs, Color.Apply, Color.IsNegative; simpl.
    rewrite !F32_abs_not_negative, !F32_abs_idempotent. repeat split.
  - intros [r g b a].
    unfold Abs_ColorA, ColorA.GetApplied, ColorA.Abs, ColorA.Apply, ColorA.IsNegative; simpl.
    rewrite !F32_abs_not_negative, !F32_abs_idempotent. repeat split.
Qed.

(** X7.  Dividing a colour by the scalar zero (of either sign) raises
    nothing: every component of the result is an infinity or NaN, so
    [IsFinite()] is false. *)
Theorem division_by_zero_scalar (s : bool) :
  (forall c : Color.t,
     Color_any cy.IsFinite (Color.divf c (S754_zero s)) = false
     /\ Color.IsFinite (Color.divf c (S754_zero s)) = false)
  /\ (forall c : ColorA.t,
     ColorA_any cy.IsFinite (ColorA.divf c (S754_zero s)) = false
     /\ ColorA.IsFinite (ColorA.divf c (S754_zero s)) = false).
Proof.
  split.
  - intros c. unfold Color_any, Color.IsFinite, Color.divf, cy.IsFinite; simpl.
    rewrite !F32_div_zero. split; reflexivity.
  - intros c. unfold ColorA_any, ColorA.IsFinite, ColorA.divf, cy.IsFinite; simpl.
    rewrite !F32_div_zero. split; reflexivity.
Qed.

(** ** The byte classes *)

Section ByteMinMax.

Lemma Color24_Min_Max_fold (c : Color24.t) :
  Color24.Min c = Z.min (Color24.r c) (Z.min (Color24.g c) (Color24.b c))
  /\ Color24.Max c = Z.max (Color24.r c) (Z.max (Color24.g c) (Color24.b c)).
Proof.
  destruct c as [r g b]. unfold Color24.Min, Color24.Max; simpl. split.
  - destruct (Z.ltb_spec r g), (Z.ltb_spec r b), (Z.ltb_spec g b); lia.
  - destruct (Z.gtb_spec r g), (Z.gtb_spec r b), (Z.gtb_spec g b); lia.
Qed.

Lemma Color32_Min_Max_fold (c : Color32.t) :
  Color32.Min c = Z.min (Z.min (Color32.r c) (Color32.g c))
                        (Z.min (Color32.b c) (Color32.a c))
  /\ Color32.Max c = Z.max (Z.max (Color32.r c) (Color32.g c))
                           (Z.max (Color32.b c) (Color32.a c)).
Proof.
  destruct c as [r g b a]. unfold Color32.Min, Color32.Max; simpl. split.
  - destruct (Z.ltb_spec r g), (Z.ltb_spec b a);
      match goal with |- context [(?x <? ?y)] => destruct (Z.ltb_spec x y) end; lia.
  - destruct (Z.gtb_spec r g), (Z.gtb_spec b a);
      match goal with |- context [(?x >? ?y)] => destruct (Z.gtb_spec x y) end; lia.
Qed.

End ByteMinMax.

(** X8.  [Min()] and [Max()] of the byte classes are the least and the
    greatest stored byte; for [Color32] the alpha takes part. *)
Theorem byte_Min_Max :
  (forall c : Color24.t,
     Color24.Min c = Z.min (Color24.r c) (Z.min (Color24.g c) (Color24.b c))
     /\ Color24.Max c = Z.max (Color24.r c) (Z.max (Color24.g c) (Color24.b c)))
  /\ (forall c : Color32.t,
     Color32.Min c = Z.min (Z.min (Color32.r c) (Color32.g c))
                           (Z.min (Color32.b c) (Color32.a c))
     /\ Color32.Max c = Z.max (Z.max (Color32.r c) (Color32.g c))
                              (Z.max (Color32.b c) (Color32.a c))).
Proof. split; [apply Color24_Min_Max_fold | apply Color32_Min_Max_fold]. Qed.

Section ByteGrayBounds.

Lemma gray_between (r g b lo hi : Z) :
  0 <= lo -> hi < 256 ->
  lo <= r <= hi -> lo <= g <= hi -> lo <= b <= hi ->
  lo <= uint8_cast (Z.quot (r + g + b + 1) 3) <= hi.
Proof.
  intros Hlo Hhi Hr Hg Hb. unfold uint8_cast.
  rewrite Z.quot_div_nonneg by lia.
  assert (Hq : lo <= (r + g + b + 1) / 3 <= hi).
  { split.
    - apply Z.div_le_lower_bound; lia.
    - apply Z.lt_succ_r, Z.div_lt_upper_bound; lia. }
  rewrite Z.mod_small; lia.
Qed.

End ByteGrayBounds.

(** X9.  [Gray()] of a byte colour lies between its [Min()] and its
    [Max()]; in particular a colour with three equal bytes [v] has the
    gray value [v]. *)
Theorem Gray_between_Min_Max :
  (forall c : Color24.t, Color24.wf c ->
     Color24.Min c <= Color24.Gray c <= Color24.Max c)
  /\ (forall c : Color32.t, Color32.wf c ->
     Color32.Min c <= Color32.Gray c <= Color32.Max c)
  /\ (forall v : Z, is_uint8 v -> Color24.Gray (Color24.mk v v v) = v).
Proof.
  split; [|split].
  - intros c Hc. destruct (Color24_Min_Max_fold c) as [Emin Emax].
    rewrite Emin, Emax. destruct c as [r g b].
    destruct Hc as (Hr & Hg & Hb). unfold is_uint8 in *; simpl in *.
    unfold Color24.Gray, Color24.Sum; simpl.
    apply gray_between; lia.
  - intros c Hc. destruct c as [r g b a].
    destruct Hc as (Hr & Hg & Hb & Ha). unfold is_uint8 in *; simpl in *.
    assert (H : Z.min r (Z.min g b) <= Color32.Gray (Color32.mk r g b a)
                <= Z.max r (Z.max g b))
      by (unfold Color32.Gray, Color32.Sum; simpl; apply gray_between; lia).
    destruct (Color32_Min_Max_fold (Color32.mk r g b a)) as [Emin Emax].
    rewrite Emin, Emax; simpl. lia.
  - intros v Hv. unfold is_uint8 in Hv.
    assert (H : v <= Color24.Gray (Color24.mk v v v) <= v)
      by (unfold Color24.Gray, Color24.Sum; simpl; apply gray_between; lia).
    lia.
Qed.

Lemma Gray_between_Min_Max_witness :
  Color32.wf (Color32.mk 10 200 33 0)
  /\ Color32.Min (Color32.mk 10 200 33 0) <= Color32.Gray (Color32.mk 10 200 33 0)
     <= Color32.Max (Color32.mk 10 200 33 0).
Proof.
  assert (H : Color32.wf (Color32.mk 10 200 33 0))
    by (unfold Color32.wf, is_uint8; simpl; lia).
  split; [exact H|].
  exact (proj1 (proj2 Gray_between_Min_Max) _ H).
Defined.

Section ByteClamp.

Lemma clamp_byte (lo hi v : Z) :
  lo <= hi -> lo <= cy.Min_u8 (cy.Max_u8 v lo) hi <= hi.
Proof. unfold cy.Min_u8, cy.Max_u8. lia. Qed.

End ByteClamp.

(** X10.  With ordered byte bounds, [Clamp] brings every stored byte of
    a [Color24] and of a [Color32] (alpha too) within the bounds, and
    the result is again made of bytes. *)
Theorem byte_Clamp_in_range (lo hi : Z) :
  is_uint8 lo -> is_uint8 hi -> lo <= hi ->
  (forall c : Color24.t,
     Color24.wf (Color24.Clamp lo hi c)
     /\ lo <= Color24.Min (Color24.Clamp lo hi c)
     /\ Color24.Max (Color24.Clamp lo hi c) <= hi)
  /\ (forall c : Color32.t,
     Color32.wf (Color32.Clamp lo hi c)
     /\ lo <= Color32.Min (Color32.Clamp lo hi c)
     /\ Color32.Max (Color32.Clamp lo hi c) <= hi).
Proof.
  unfold is_uint8. intros Hlo Hhi Hle. split.
  - intros c. destruct (Color24_Min_Max_fold (Color24.Clamp lo hi c)) as [-> ->].
    destruct c as [r g b].
    unfold Color24.wf, is_uint8; simpl.
    pose proof (clamp_byte lo hi r Hle). pose proof (clamp_byte lo hi g Hle).
    pose proof (clamp_byte lo hi b Hle).
    repeat split; lia.
  - intros c. destruct (Color32_Min_Max_fold (Color32.Clamp lo hi c)) as [-> ->].
    destruct c as [r g b a].
    unfold Color32.wf, is_uint8; simpl.
    pose proof (clamp_byte lo hi r Hle). pose proof (clamp_byte lo hi g Hle).
    pose proof (clamp_byte lo hi b Hle). pose proof (clamp_byte lo hi a Hle).
    repeat split; lia.
Qed.

Lemma byte_Clamp_in_range_witness :
  is_uint8 16 /\ is_uint8 235 /\ 16 <= 235
  /\ Color32.Max (Color32.Clamp 16 235 (Color32.mk 0 100 255 255)) <= 235.
Proof.
  assert (H1 : is_uint8 16) by (unfold is_uint8; lia).
  assert (H2 : is_uint8 235) by (unfold is_uint8; lia).
  assert (H3 : 16 <= 235) by lia.
  repeat split; try lia.
  exact (proj2 (proj2 (proj2 (byte_Clamp_in_range 16 235 H1 H2 H3)
                         (Color32.mk 0 100 255 255)))).
Defined.

(** X11.  [Clamp] with the default bounds 0 and 255 changes no byte
    colour; clamping twice with the same bounds is clamping once; and
    with crossed bounds ([limitMax < limitMin]) every byte becomes
    [limitMax]. *)
Theorem byte_Clamp_default_and_idempotent :
  (forall c : Color24.t, Color24.wf c -> Color24.Clamp 0 255 c = c)
  /\ (forall c : Color32.t, Color32.wf c -> Color32.Clamp 0 255 c = c)
  /\ (forall (lo hi : Z) (c : Color24.t),
        Color24.Clamp lo hi (Color24.Clamp lo hi c) = Color24.Clamp lo hi c)
  /\ (forall (lo hi : Z) (c : Color32.t),
        Color32.Clamp lo hi (Color32.Clamp lo hi c) = Color32.Clamp lo hi c)
  /\ (forall (lo hi : Z) (c : Color24.t), hi < lo ->
        Color24.Clamp lo hi c = Color24.mk hi hi hi)
  /\ (forall (lo hi : Z) (c : Color32.t), hi < lo ->
        Color32.Clamp lo hi c = Color32.mk hi hi hi hi).
Proof.
  repeat split.
  - intros [r g b] (Hr & Hg & Hb). unfold is_uint8 in *; simpl in *.
    unfold Color24.Clamp, Color24.ClampMax, Color24.ClampMin, cy.Min_u8, cy.Max_u8; simpl.
    f_equal; lia.
  - intros [r g b a] (Hr & Hg & Hb & Ha). unfold is_uint8 in *; simpl in *.
    unfold Color32.Clamp, Color32.ClampMax, Color32.ClampMin, cy.Min_u8, cy.Max_u8; simpl.
    f_equal; lia.
  - intros lo hi [r g b].
    unfold Color24.Clamp, Color24.ClampMax, Color24.ClampMin, cy.Min_u8, cy.Max_u8; simpl.
    f_equal; lia.
  - intros lo hi [r g b a].
    unfold Color32.Clamp, Color32.ClampMax, Color32.ClampMin, cy.Min_u8, cy.Max_u8; simpl.
    f_equal; lia.
  - intros lo hi [r g b] H.
    unfold Color24.Clamp, Color24.ClampMax, Color24.ClampMin, cy.Min_u8, cy.Max_u8; simpl.
    f_equal; lia.
  - intros lo hi [r g b a] H.
    unfold Color32.Clamp, Color32.ClampMax, Color32.ClampMin, cy.Min_u8, cy.Max_u8; simpl.
    f_equal; lia.
Qed.

Lemma byte_Clamp_default_and_idempotent_witness :
  Color24.wf (Color24.mk 0 128 255)
  /\ Color24.Clamp 0 255 (Color24.mk 0 128 255) = Color24.mk 0 128 255.
Proof.
  assert (H : Color24.wf (Color24.mk 0 128 255))
    by (unfold Color24.wf, is_uint8; simpl; lia).
  split; [exact H|].
  exact (proj1 byte_Clamp_default_and_idempotent _ H).
Defined.

(** X12.  On the byte classes [==] holds exactly for equal colours and
    [!=] exactly for different ones. *)
Theorem byte_eq_decides_equality :
  (forall x y : Color24.t, Color24.eq x y = true <-> x = y)
  /\ (forall x y : Color24.t, Color24.ne x y = true <-> x <> y)
  /\ (forall x y : Color32.t, Color32.eq x y = true <-> x = y)
  /\ (forall x y : Color32.t, Color32.ne x y = true <-> x <> y).
Proof.
  assert (E24 : forall x y : Color24.t, Color24.eq x y = true <-> x = y).
  { intros [r g b] [r' g' b']. unfold Color24.eq; simpl.
    rewrite !andb_true_iff, !Z.eqb_eq. split.
    - intros [[-> ->] ->]. reflexivity.
    - intros H. injection H as -> -> ->. auto. }
  assert (E32 : forall x y : Color32.t, Color32.eq x y = true <-> x = y).
  { intros [r g b a] [r' g' b' a']. unfold Color32.eq; simpl.
    rewrite !andb_true_iff, !Z.eqb_eq. split.
    - intros [[[-> ->] ->] ->]. reflexivity.
    - intros H. injection H as -> -> -> ->. auto. }
  repeat split; try apply E24; try apply E32.
  - intros H E. apply E24 in E. rewrite Color24_ne_negb_eq, E in H. discriminate.
  - intros H. rewrite Color24_ne_negb_eq.
    destruct (Color24.eq x y) eqn:E; [apply E24 in E; contradiction | reflexivity].
  - intros H E. apply E32 in E. rewrite Color32_ne_negb_eq, E in H. discriminate.
  - intros H. rewrite Color32_ne_negb_eq.
    destruct (Color32.eq x y) eqn:E; [apply E32 in E; contradiction | reflexivity].
Qed.

(** X13.  A byte colour is black exactly when its [Sum()] is zero, which
    is when its r, g, b are those of [Black()]; the alpha of a [Color32]
    plays no part. *)
Theorem byte_IsBlack :
  (forall c : Color24.t, Color24.wf c ->
     (Color24.IsBlack c = true <-> Color24.Sum c = 0)
     /\ (Color24.IsBlack c = true <-> c = Color24.Black))
  /\ (forall c : Color32.t, Color32.wf c ->
     (Color32.IsBlack c = true <-> Color32.Sum c = 0)
     /\ (Color32.IsBlack c = true <-> c = Color32.Black (Color32.a c))
     /\ Color32.IsBlack c = Color24.IsBlack (Color24_of_Color32 c)).
Proof.
  split.
  - intros [r g b] (Hr & Hg & Hb). unfold is_uint8 in *; simpl in *.
    unfold Color24.IsBlack, Color24.Sum, Color24.Black; simpl.
    rewrite !andb_true_iff, !Z.eqb_eq. repeat split; try lia.
    + intros [[-> ->] ->]. reflexivity.
    + injection H; auto.
    + injection H; auto.
    + injection H; auto.
  - intros [r g b a] (Hr & Hg & Hb & Ha). unfold is_uint8 in *; simpl in *.
    unfold Color32.IsBlack, Color32.Sum, Color32.Black; simpl.
    rewrite !andb_true_iff, !Z.eqb_eq. repeat split; try lia.
    + intros [[-> ->] ->]. reflexivity.
    + injection H; auto.
    + injection H; auto.
    + injection H; auto.
Qed.

Lemma byte_IsBlack_witness :
  Color32.wf (Color32.mk 0 0 0 77) /\ Color32.IsBlack (Color32.mk 0 0 0 77) = true.
Proof.
  assert (H : Color32.wf (Color32.mk 0 0 0 77))
    by (unfold Color32.wf, is_uint8; simpl; lia).
  split; [exact H|].
  apply (proj1 (proj2 byte_IsBlack _ H)). reflexivity.
Defined.

(** ** Conversions between the float and the byte classes *)

Section FloatByte.

Local Open Scope f32_scope.

Lemma FloatToByte_of_byte (b : Z) :
  is_uint8 b -> FloatToByte (byte_to_float b) = Some b.
Proof.
  intros Hb.
  assert (H : (match FloatToByte (byte_to_float b) with
               | Some v => v =? b
               | None => false
               end) = true).
  { apply (forall_bytes (fun b => match FloatToByte (byte_to_float b) with
                                  | Some v => v =? b
                                  | None => false
                                  end)); [vm_compute; reflexivity | exact Hb]. }
  destruct (FloatToByte (byte_to_float b)) as [v|]; [|discriminate].
  apply Z.eqb_eq in H. subst v. reflexivity.
Qed.

Lemma FloatToByte_uint8 (f : F32.t) (b : Z) : FloatToByte f = Some b -> is_uint8 b.
Proof.
  unfold FloatToByte. destruct (F32.to_int _) as [v|]; simpl; [|discriminate].
  intros H. injection H as <-. rewrite ClampInt_clamp. apply clamp_uint8.
Qed.

Lemma FloatToByte_not_finite (f : F32.t) :
  F32.is_finite f = false -> FloatToByte f = None.
Proof.
  destruct f as [s|s| |s m e]; simpl; intros H; try discriminate.
  - destruct s; vm_compute; reflexivity.
  - reflexivity.
Qed.

Lemma byte_to_float_increasing (x y : Z) :
  is_uint8 x -> is_uint8 y -> (x < y)%Z ->
  (byte_to_float x < byte_to_float y) = true.
Proof.
  intros Hx Hy Hlt.
  pose (row := fun b : Z => (b, byte_to_float b)).
  pose (P := fun p q : Z * F32.t => implb (fst p <? fst q)%Z (snd p < snd q)).
  assert (H : (let t := map row all_bytes in
               forallb (fun p => forallb (P p) t) t) = true)
    by (vm_compute; reflexivity).
  cbv zeta in H. rewrite forallb_forall in H.
  assert (Ix : In (row x) (map row all_bytes)) by (apply in_map, uint8_in_bytes, Hx).
  assert (Iy : In (row y) (map row all_bytes)) by (apply in_map, uint8_in_bytes, Hy).
  specialize (H _ Ix). rewrite forallb_forall in H. specialize (H _ Iy).
  unfold P, row in H; simpl fst in H; simpl snd in H.
  apply Z.ltb_lt in Hlt. rewrite Hlt in H. exact H.
Qed.

End FloatByte.

(** X14.  A byte colour converted to a float colour and back is the
    same byte colour, for every pairing of the classes; the default
    alphas 255 and 1.0f correspond. *)
Theorem byte_float_byte_roundtrip :
  (forall c : Color24.t, Color24.wf c ->
     Color24.of_Color (Color24.ToColor c) = Some c
     /\ Color24.of_ColorA (Color24.ToColorA c) = Some c
     /\ Color32.of_ColorA (Color24.ToColorA c) = Some (Color32.of_Color24 c 255)
     /\ Color32.of_Color (Color24.ToColor c) F32.one = Some (Color32.of_Color24 c 255))
  /\ (forall c : Color32.t, Color32.wf c ->
     Color32.of_ColorA (Color32.ToColorA c) = Some c
     /\ Color24.of_Color (Color32.ToColor c) = Some (Color24_of_Color32 c)
     /\ Color24.of_ColorA (Color32.ToColorA c) = Some (Color24_of_Color32 c)).
Proof.
  assert (Hone : FloatToByte F32.one = Some 255) by (vm_compute; reflexivity).
  split.
  - intros [r g b] (Hr & Hg & Hb).
    cbn [Color24.r Color24.g Color24.b] in Hr, Hg, Hb.
    unfold Color24.of_Color, Color24.of_ColorA, Color32.of_ColorA, Color32.of_Color,
      Color24.ToColor, Color24.ToColorA, Color32.of_Color24.
    cbn [Color24.r Color24.g Color24.b Color.r Color.g Color.b
         ColorA.r ColorA.g ColorA.b ColorA.a].
    fold (byte_to_float r) (byte_to_float g) (byte_to_float b).
    rewrite !FloatToByte_of_byte by assumption.
    rewrite Hone. repeat split.
  - intros [r g b a] (Hr & Hg & Hb & Ha).
    cbn [Color32.r Color32.g Color32.b Color32.a] in Hr, Hg, Hb, Ha.
    unfold Color24.of_Color, Color24.of_ColorA, Color32.of_ColorA,
      Color32.ToColor, Color32.ToColorA, Color24_of_Color32.
    cbn [Color32.r Color32.g Color32.b Color32.a Color.r Color.g Color.b
         ColorA.r ColorA.g ColorA.b ColorA.a].
    fold (byte_to_float r) (byte_to_float g) (byte_to_float b) (byte_to_float a).
    rewrite !FloatToByte_of_byte by assumption. repeat split.
Qed.

Lemma byte_float_byte_roundtrip_witness :
  Color32.wf (Color32.mk 1 127 254 3)
  /\ Color32.of_ColorA (Color32.ToColorA (Color32.mk 1 127 254 3))
     = Some (Color32.mk 1 127 254 3).
Proof.
  assert (H : Color32.wf (Color32.mk 1 127 254 3))
    by (unfold Color32.wf, is_uint8; simpl; lia).
  split; [exact H|].
  exact (proj1 (proj2 byte_float_byte_roundtrip _ H)).
Defined.

(** X15.  Whenever the construction of a byte colour from a float colour
    is defined, every field of the result is a byte. *)
Theorem float_to_byte_colour_wf :
  (forall (c : Color.t) (c' : Color24.t), Color24.of_Color c = Some c' -> Color24.wf c')
  /\ (forall (c : ColorA.t) (c' : Color24.t), Color24.of_ColorA c = Some c' -> Color24.wf c')
  /\ (forall (c : Color.t) (al : F32.t) (c' : Color32.t),
        Color32.of_Color c al = Some c' -> Color32.wf c')
  /\ (forall (c : ColorA.t) (c' : Color32.t), Color32.of_ColorA c = Some c' -> Color32.wf c').
Proof.
  split; [|split; [|split]].
  - intros c c'. unfold Color24.of_Color, bind.
    destruct (FloatToByte (Color.r c)) as [r'|] eqn:Er; [|discriminate].
    destruct (FloatToByte (Color.g c)) as [g'|] eqn:Eg; [|discriminate].
    destruct (FloatToByte (Color.b c)) as [b'|] eqn:Eb; [|discriminate].
    intros H. injection H as <-.
    split; [|split]; eapply FloatToByte_uint8; eassumption.
  - intros c c'. unfold Color24.of_ColorA, bind.
    destruct (FloatToByte (ColorA.r c)) as [r'|] eqn:Er; [|discriminate].
    destruct (FloatToByte (ColorA.g c)) as [g'|] eqn:Eg; [|discriminate].
    destruct (FloatToByte (ColorA.b c)) as [b'|] eqn:Eb; [|discriminate].
    intros H. injection H as <-.
    split; [|split]; eapply FloatToByte_uint8; eassumption.
  - intros c al c'. unfold Color32.of_Color, bind.
    destruct (FloatToByte (Color.r c)) as [r'|] eqn:Er; [|discriminate].
    destruct (FloatToByte (Color.g c)) as [g'|] eqn:Eg; [|discriminate].
    destruct (FloatToByte (Color.b c)) as [b'|] eqn:Eb; [|discriminate].
    destruct (FloatToByte al) as [a'|] eqn:Ea; [|discriminate].
    intros H. injection H as <-.
    split; [|split; [|split]]; eapply FloatToByte_uint8; eassumption.
  - intros c c'. unfold Color32.of_ColorA, bind.
    destruct (FloatToByte (ColorA.r c)) as [r'|] eqn:Er; [|discriminate].
    destruct (FloatToByte (ColorA.g c)) as [g'|] eqn:Eg; [|discriminate].
    destruct (FloatToByte (ColorA.b c)) as [b'|] eqn:Eb; [|discriminate].
    destruct (FloatToByte (ColorA.a c)) as [a'|] eqn:Ea; [|discriminate].
    intros H. injection H as <-.
    split; [|split; [|split]]; eapply FloatToByte_uint8; eassumption.
Qed.

Lemma float_to_byte_colour_wf_witness :
  Color24.of_Color (Color.mk F32.half (F32.of_Z 2) (F32.of_Z (-1)))
    = Some (Color24.mk 128 255 0)
  /\ Color24.wf (Color24.mk 128 255 0).
Proof.
  assert (H : Color24.of_Color (Color.mk F32.half (F32.of_Z 2) (F32.of_Z (-1)))
              = Some (Color24.mk 128 255 0)) by reflexivity.
  split; [exact H|].
  exact (proj1 float_to_byte_colour_wf _ _ H).
Defined.

(** X16.  The construction of a byte colour from a float colour is
    undefined as soon as one component that it converts is NaN or an
    infinity (for [Color32] the alpha counts). *)
Theorem float_to_byte_colour_not_finite :
  (forall c : Color.t, Color.IsFinite c = false -> Color24.of_Color c = None)
  /\ (forall c : ColorA.t, ColorA.IsFinite c = false -> Color32.of_ColorA c = None)
  /\ (forall (c : Color.t) (al : F32.t),
        Color.IsFinite c && cy.IsFinite al = false -> Color32.of_Color c al = None).
Proof.
  unfold Color.IsFinite, ColorA.IsFinite, cy.IsFinite.
  split; [|split].
  - intros [r g b]; simpl. intros H.
    unfold Color24.of_Color, bind; simpl.
    repeat (apply andb_false_iff in H; destruct H as [H|H]);
      apply FloatToByte_not_finite in H;
      repeat match goal with
             | |- context [match FloatToByte ?x with _ => _ end] =>
                 first [rewrite H | destruct (FloatToByte x)]
             end; reflexivity.
  - intros [r g b a]; simpl. intros H.
    unfold Color32.of_ColorA, bind; simpl.
    repeat (apply andb_false_iff in H; destruct H as [H|H]);
      apply FloatToByte_not_finite in H;
      repeat match goal with
             | |- context [match FloatToByte ?x with _ => _ end] =>
                 first [rewrite H | destruct (FloatToByte x)]
             end; reflexivity.
  - intros [r g b] al; simpl. intros H.
    unfold Color32.of_Color, bind; simpl.
    repeat (apply andb_false_iff in H; destruct H as [H|H]);
      apply FloatToByte_not_finite in H;
      repeat match goal with
             | |- context [match FloatToByte ?x with _ => _ end] =>
                 first [rewrite H | destruct (FloatToByte x)]
             end; reflexivity.
Qed.

Lemma float_to_byte_colour_not_finite_witness :
  Color.IsFinite (Color.mk F32.half F32.infinity F32.zero) = false
  /\ Color24.of_Color (Color.mk F32.half F32.infinity F32.zero) = None.
Proof.
  split; [reflexivity|].
  apply (proj1 float_to_byte_colour_not_finite). reflexivity.
Defined.

(** X17.  Byte to float conversion keeps the order of the bytes: a
    larger byte of a [Color32] gives a strictly larger float component
    of [ToColorA()], for r, g, b and alpha; so does [Color24::ToColor]. *)
Theorem byte_to_float_keeps_order :
  (forall c d : Color32.t, Color32.wf c -> Color32.wf d ->
     (Color32.r c < Color32.r d ->
        F32.ltb (ColorA.r (Color32.ToColorA c)) (ColorA.r (Color32.ToColorA d)) = true)
     /\ (Color32.g c < Color32.g d ->
        F32.ltb (ColorA.g (Color32.ToColorA c)) (ColorA.g (Color32.ToColorA d)) = true)
     /\ (Color32.b c < Color32.b d ->
        F32.ltb (ColorA.b (Color32.ToColorA c)) (ColorA.b (Color32.ToColorA d)) = true)
     /\ (Color32.a c < Color32.a d ->
        F32.ltb (ColorA.a (Color32.ToColorA c)) (ColorA.a (Color32.ToColorA d)) = true))
  /\ (forall c d : Color24.t, Color24.wf c -> Color24.wf d ->
     (Color24.r c < Color24.r d ->
        F32.ltb (Color.r (Color24.ToColor c)) (Color.r (Color24.ToColor d)) = true)
     /\ (Color24.g c < Color24.g d ->
        F32.ltb (Color.g (Color24.ToColor c)) (Color.g (Color24.ToColor d)) = true)
     /\ (Color24.b c < Color24.b d ->
        F32.ltb (Color.b (Color24.ToColor c)) (Color.b (Color24.ToColor d)) = true)).
Proof.
  split.
  - intros [r g b a] [r' g' b' a'] (Hr & Hg & Hb & Ha) (Hr' & Hg' & Hb' & Ha').
    cbn [Color32.r Color32.g Color32.b Color32.a] in *.
    unfold Color32.ToColorA. cbn [ColorA.r ColorA.g ColorA.b ColorA.a].
    repeat split; intros Hlt; apply byte_to_float_increasing; assumption.
  - intros [r g b] [r' g' b'] (Hr & Hg & Hb) (Hr' & Hg' & Hb').
    cbn [Color24.r Color24.g Color24.b] in *.
    unfold Color24.ToColor. cbn [Color.r Color.g Color.b].
    repeat split; intros Hlt; apply byte_to_float_increasing; assumption.
Qed.

Lemma byte_to_float_keeps_order_witness :
  Color24.wf (Color24.mk 254 0 0) /\ Color24.wf (Color24.mk 255 0 0)
  /\ F32.ltb (Color.r (Color24.ToColor (Color24.mk 254 0 0)))
             (Color.r (Color24.ToColor (Color24.mk 255 0 0))) = true.
Proof.
  assert (H1 : Color24.wf (Color24.mk 254 0 0))
    by (unfold Color24.wf, is_uint8; simpl; lia).
  assert (H2 : Color24.wf (Color24.mk 255 0 0))
    by (unfold Color24.wf, is_uint8; simpl; lia).
  split; [exact H1|]. split; [exact H2|].
  apply (proj1 (proj2 byte_to_float_keeps_order _ _ H1 H2)).
  simpl. lia.
Defined.

(** X18.  The conversions agree with one another: dropping the alpha
    commutes with the byte to float conversion, [ColorA] built from a
    [Color24] is the [Color] built from it plus the alpha, and the byte
    alpha 255 that [Color32] takes by default becomes the float alpha
    1.0f that [ColorA] takes by default. *)
Theorem conversions_agree :
  (forall c : Color32.t,
     Color_of_ColorA (ColorA_of_Color32 c) = Color_of_Color32 c
     /\ Color_of_Color24 (Color24_of_Color32 c) = Color_of_Color32 c)
  /\ (forall (c : Color24.t) (alpha : F32.t),
     ColorA_of_Color24 c alpha = ColorA.of_Color (Color_of_Color24 c) alpha
     /\ Color_of_ColorA (ColorA_of_Color24 c alpha) = Color_of_Color24 c)
  /\ (forall (c : Color.t) (alpha : F32.t), Color_of_ColorA (ColorA.of_Color c alpha) = c)
  /\ (forall c : Color24.t,
     ColorA_of_Color32 (Color32.of_Color24 c 255) = ColorA_of_Color24 c F32.one
     /\ Color24.ToColorA c = ColorA_of_Color24 c F32.one).
Proof.
  split; [|split; [|split]].
  - intros [r g b a]. split; reflexivity.
  - intros [r g b] alpha. split; reflexivity.
  - intros [r g b] alpha. reflexivity.
  - intros [r g b].
    unfold ColorA_of_Color32, ColorA_of_Color24, Color32.ToColorA, Color24.ToColorA,
      Color24.ToColor, Color32.of_Color24.
    cbn [Color32.r Color32.g Color32.b Color32.a Color24.r Color24.g Color24.b
         Color.r Color.g Color.b].
    replace (F32.of_Z 255 / F32.of_Z 255)%f32 with F32.one by (vm_compute; reflexivity).
    split; reflexivity.
Qed.

(** ** Min, Max and Clamp of Color *)

Section ColorMinMax.

Local Open Scope f32_scope.

Lemma Color_no_nan (c : Color.t) :
  Color_any F32.is_nan c = false ->
  F32.is_nan (Color.r c) = false /\ F32.is_nan (Color.g c) = false
  /\ F32.is_nan (Color.b c) = false.
Proof.
  unfold Color_any. intros H.
  apply orb_false_iff in H. destruct H as [H Hb].
  apply orb_false_iff in H. destruct H as [Hr Hg].
  auto.
Qed.

End ColorMinMax.

(** X19.  When no component of a [Color] is NaN, [Min()] is one of r, g,
    b and is below or equal to each of them, [Max()] is one of them and
    above or equal to each, and [Min() <= Max()]. *)
Theorem Color_Min_Max_bounds (c : Color.t) :
  Color_any F32.is_nan c = false ->
  (Color.Min c = Color.r c \/ Color.Min c = Color.g c \/ Color.Min c = Color.b c)
  /\ Color_all (F32.leb (Color.Min c)) c = true
  /\ (Color.Max c = Color.r c \/ Color.Max c = Color.g c \/ Color.Max c = Color.b c)
  /\ Color_all (fun x => F32.leb x (Color.Max c)) c = true
  /\ F32.leb (Color.Min c) (Color.Max c) = true.
Proof.
  intros H. destruct (Color_no_nan c H) as (Hr & Hg & Hb).
  assert (Hmin : (Color.Min c = Color.r c \/ Color.Min c = Color.g c
                  \/ Color.Min c = Color.b c)
                 /\ Color_all (F32.leb (Color.Min c)) c = true).
  { unfold Color.Min, Color_all.
    destruct (F32.ltb (Color.r c) (Color.g c)) eqn:Ergt;
      [destruct (F32.ltb (Color.r c) (Color.b c)) eqn:E2
      |destruct (F32.ltb (Color.g c) (Color.b c)) eqn:E2].
    - rewrite (F32_leb_refl _ Hr), (F32_ltb_leb _ _ Ergt), (F32_ltb_leb _ _ E2). auto.
    - pose proof (F32_leb_total _ _ Hr Hb E2) as L.
      rewrite L, (F32_leb_refl _ Hb),
        (F32_leb_trans _ _ _ L (F32_ltb_leb _ _ Ergt)). auto.
    - pose proof (F32_leb_total _ _ Hr Hg Ergt) as L.
      rewrite L, (F32_leb_refl _ Hg), (F32_ltb_leb _ _ E2). auto.
    - pose proof (F32_leb_total _ _ Hr Hg Ergt) as L.
      pose proof (F32_leb_total _ _ Hg Hb E2) as L'.
      rewrite L', (F32_leb_refl _ Hb), (F32_leb_trans _ _ _ L' L). auto. }
  assert (Hmax : (Color.Max c = Color.r c \/ Color.Max c = Color.g c
                  \/ Color.Max c = Color.b c)
                 /\ Color_all (fun x => F32.leb x (Color.Max c)) c = true).
  { unfold Color.Max, Color_all, F32.gtb. fold F32.ltb.
    destruct (SFltb (Color.g c) (Color.r c)) eqn:Ergt;
      [destruct (SFltb (Color.b c) (Color.r c)) eqn:E2
      |destruct (SFltb (Color.b c) (Color.g c)) eqn:E2].
    - rewrite (F32_leb_refl _ Hr), (F32_ltb_leb _ _ Ergt), (F32_ltb_leb _ _ E2). auto.
    - pose proof (F32_leb_total _ _ Hb Hr E2) as L.
      rewrite L, (F32_leb_refl _ Hb),
        (F32_leb_trans _ _ _ (F32_ltb_leb _ _ Ergt) L). auto.
    - pose proof (F32_leb_total _ _ Hg Hr Ergt) as L.
      rewrite L, (F32_leb_refl _ Hg), (F32_ltb_leb _ _ E2). auto.
    - pose proof (F32_leb_total _ _ Hg Hr Ergt) as L.
      pose proof (F32_leb_total _ _ Hb Hg E2) as L'.
      rewrite L', (F32_leb_refl _ Hb), (F32_leb_trans _ _ _ L L'). auto. }
  destruct Hmin as [Emin Lmin], Hmax as [Emax Lmax].
  repeat split; try assumption.
  unfold Color_all in Lmin, Lmax.
  apply andb_true_iff in Lmin. destruct Lmin as [Lmin _].
  apply andb_true_iff in Lmin. destruct Lmin as [Lmin _].
  apply andb_true_iff in Lmax. destruct Lmax as [Lmax _].
  apply andb_true_iff in Lmax. destruct Lmax as [Lmax _].
  exact (F32_leb_trans _ _ _ Lmin Lmax).
Qed.

Lemma Color_Min_Max_bounds_witness :
  Color_any F32.is_nan (Color.mk (F32.of_Z 3) (F32.of_Z (-7)) F32.half) = false
  /\ F32.leb (Color.Min (Color.mk (F32.of_Z 3) (F32.of_Z (-7)) F32.half))
             (Color.Max (Color.mk (F32.of_Z 3) (F32.of_Z (-7)) F32.half)) = true.
Proof.
  split; [reflexivity|].
  apply (Color_Min_Max_bounds (Color.mk (F32.of_Z 3) (F32.of_Z (-7)) F32.half)).
  reflexivity.
Defined.

(** X20.  For any [cy::Max] and [cy::Min] that return one of their
    operands, above (below) both when neither is NaN, [Color::Clamp]
    with ordered bounds brings the three components of a colour without
    NaN within the bounds. *)
Theorem Color_Clamp_in_range (cyMax cyMin : F32.t -> F32.t -> F32.t)
    (lo hi : F32.t) (c : Color.t) :
  (forall x y, cyMax x y = x \/ cyMax x y = y) ->
  (forall x y, cyMin x y = x \/ cyMin x y = y) ->
  (forall x y, F32.is_nan x = false -> F32.is_nan y = false ->
     F32.leb x (cyMax x y) = true /\ F32.leb y (cyMax x y) = true) ->
  (forall x y, F32.is_nan x = false -> F32.is_nan y = false ->
     F32.leb (cyMin x y) x = true /\ F32.leb (cyMin x y) y = true) ->
  F32.leb lo hi = true ->
  Color_any F32.is_nan c = false ->
  Color_all (within lo hi) (Color.Clamp cyMax cyMin lo hi c) = true.
Proof.
  intros Hp1 Hp2 Ha Hb Hle Hc.
  destruct (Color_no_nan c Hc) as (Nr & Ng & Nb).
  unfold Color_all, Color.Clamp, Color.ClampMax, Color.ClampMin, Color.Apply.
  cbn [Color.r Color.g Color.b].
  rewrite !(clamp_channel cyMax cyMin Hp1 Hp2 Ha Hb) by assumption.
  reflexivity.
Qed.

Lemma Color_Clamp_in_range_witness :
  Color.Clamp cy.Max_f32 cy.Min_f32 F32.zero F32.one
    (Color.mk (F32.of_Z (-1)) F32.half (F32.of_Z 2))
  = Color.mk F32.zero F32.half F32.one
  /\ Color_all (within F32.zero F32.one)
       (Color.Clamp cy.Max_f32 cy.Min_f32 F32.zero F32.one
          (Color.mk (F32.of_Z (-1)) F32.half (F32.of_Z 2))) = true.
Proof.
  split; [reflexivity|].
  apply (Color_Clamp_in_range cy.Max_f32 cy.Min_f32).
  - intros x y. unfold cy.Max_f32. destruct (F32.ltb x y); auto.
  - intros x y. unfold cy.Min_f32. destruct (F32.ltb y x); auto.
  - intros x y Hx Hy. unfold cy.Max_f32. destruct (F32.ltb x y) eqn:E;
      auto using F32_leb_refl, F32_ltb_leb, F32_leb_total.
  - intros x y Hx Hy. unfold cy.Min_f32. destruct (F32.ltb y x) eqn:E;
      auto using F32_leb_refl, F32_ltb_leb, F32_leb_total.
  - reflexivity.
  - reflexivity.
Defined.

(** ** The linear segment of the transfer functions *)

(** X21.  Below the breakpoints the transfer functions never call
    [powf]: when every channel is below 0.0031308, [Linear2sRGB] is the
    multiplication by 12.92f, and when every channel is at most 0.04045,
    [sRGB2Linear] is the division by 12.92f; [ColorA] likewise, with its
    alpha kept. *)
Theorem transfer_linear_segment (powf : F32.t -> F32.t -> F32.t) :
  (forall c : Color.t,
     Color_all (fun x => F32.ltb x (F32.lit 31308 10000000)) c = true ->
     Color.Linear2sRGB powf c = Color.mulf c (F32.lit 1292 100))
  /\ (forall c : Color.t,
     Color_all (fun x => F32.leb x (F32.lit 4045 100000)) c = true ->
     Color.sRGB2Linear powf c = Color.divf c (F32.lit 1292 100))
  /\ (forall c : ColorA.t,
     Color_all (fun x => F32.ltb x (F32.lit 31308 10000000)) (Color_of_ColorA c) = true ->
     ColorA.Linear2sRGB powf c
     = ColorA.of_Color (Color.mulf (Color_of_ColorA c) (F32.lit 1292 100)) (ColorA.a c))
  /\ (forall c : ColorA.t,
     Color_all (fun x => F32.leb x (F32.lit 4045 100000)) (Color_of_ColorA c) = true ->
     ColorA.sRGB2Linear powf c
     = ColorA.of_Color (Color.divf (Color_of_ColorA c) (F32.lit 1292 100)) (ColorA.a c)).
Proof.
  assert (S3 : forall p q r : bool, p && q && r = true -> p = true /\ q = true /\ r = true).
  { intros p q r H. apply andb_true_iff in H. destruct H as [H Hr].
    apply andb_true_iff in H. destruct H as [Hp Hq]. auto. }
  split; [|split; [|split]].
  - intros [r g b] H. apply S3 in H. cbn [Color.r Color.g Color.b] in H.
    destruct H as (Hr & Hg & Hb).
    unfold Color.Linear2sRGB, Color.mulf. cbn [Color.r Color.g Color.b].
    rewrite Hr, Hg, Hb. reflexivity.
  - intros [r g b] H. apply S3 in H. cbn [Color.r Color.g Color.b] in H.
    destruct H as (Hr & Hg & Hb).
    unfold Color.sRGB2Linear, Color.divf. cbn [Color.r Color.g Color.b].
    rewrite Hr, Hg, Hb. reflexivity.
  - intros [r g b a] H. apply S3 in H.
    unfold Color_of_ColorA in *.
    cbn [Color.r Color.g Color.b ColorA.r ColorA.g ColorA.b ColorA.a] in *.
    destruct H as (Hr & Hg & Hb).
    unfold ColorA.Linear2sRGB, Color.Linear2sRGB, Color.mulf.
    cbn [Color.r Color.g Color.b ColorA.r ColorA.g ColorA.b ColorA.a].
    rewrite Hr, Hg, Hb. reflexivity.
  - intros [r g b a] H. apply S3 in H.
    unfold Color_of_ColorA in *.
    cbn [Color.r Color.g Color.b ColorA.r ColorA.g ColorA.b ColorA.a] in *.
    destruct H as (Hr & Hg & Hb).
    unfold ColorA.sRGB2Linear, Color.sRGB2Linear, Color.divf.
    cbn [Color.r Color.g Color.b ColorA.r ColorA.g ColorA.b ColorA.a].
    rewrite Hr, Hg, Hb. reflexivity.
Qed.

Lemma transfer_linear_segment_witness :
  Color_all (fun x => F32.ltb x (F32.lit 31308 10000000))
    (Color.mk F32.zero (F32.of_Z (-2)) (F32.lit 1 1000)) = true
  /\ Color.Linear2sRGB (fun x _ => x) (Color.mk F32.zero (F32.of_Z (-2)) (F32.lit 1 1000))
     = Color.mulf (Color.mk F32.zero (F32.of_Z (-2)) (F32.lit 1 1000)) (F32.lit 1292 100).
Proof.
  split; [reflexivity|].
  apply (proj1 (transfer_linear_segment (fun x _ => x))).
  reflexivity.
Defined.
